(** * A portfolio dashboard over a mock price feed

    Shallow embedding of the mock price service ([prices.mock.ts]) and of
    the valuation logic of the dashboard page ([DashboardPage]), with the
    properties the specification states about them.

    JavaScript numbers are IEEE-754 binary64 values.  The program is written
    once, over an interface [JSNumber] of the arithmetic it uses, and that
    interface has two instances:

    - [float], Rocq's primitive binary64 numbers, on which the program
      evaluates bit for bit as it does in a JavaScript engine, and whose
      operations the standard library specifies ([FloatAxioms]);
    - [xnum], the same special values ([Infinity], [-Infinity], [NaN]) around
      exact rational arithmetic: binary64 without rounding error, range limit
      or negative zero.

    What depends on no arithmetic is proved for every instance; what depends
    on the special values, for both of these ([number_model]).  Two facts
    that comparisons and a single rounding decide, about [clamp] and about
    prices too small to move, are proved on exact numbers. *)

From Stdlib Require Import ZArith QArith Qabs Qcanon Qround Floats.
From Stdlib Require Import Lia Lqa.
From stdpp Require Import gmap strings list.

Close Scope Q_scope.
Close Scope Qc_scope.
Close Scope float_scope.
Open Scope string_scope.
Open Scope list_scope.

(** ** The arithmetic of the program *)

Declare Scope js_scope.
Delimit Scope js_scope with js.

Class JSNumber (num : Type) : Type := {
  lit : Q -> num;                  (* a decimal literal of the source text *)
  num_add : num -> num -> num;     (* a + b *)
  num_sub : num -> num -> num;     (* a - b *)
  num_mul : num -> num -> num;     (* a * b *)
  num_div : num -> num -> num;     (* a / b *)
  num_le : num -> num -> bool;     (* a <= b *)
  num_lt : num -> num -> bool;     (* a < b *)
  Math_round : num -> num;
  Math_max : num -> num -> num;
  Math_min : num -> num -> num
}.

Arguments lit {num _} q%_Q.

Notation "a + b" := (num_add a b) : js_scope.
Notation "a - b" := (num_sub a b) : js_scope.
Notation "a * b" := (num_mul a b) : js_scope.
Notation "a / b" := (num_div a b) : js_scope.
Notation "a <= b" := (num_le a b) : js_scope.
Notation "a < b" := (num_lt a b) : js_scope.
Notation "a > b" := (num_lt b a) (only parsing) : js_scope.

(** *** Tests on numbers, written with these operations *)

Section Tests.
Context {num : Type} `{JSNumber num}.
Local Open Scope js_scope.

(* Number.isNaN(a): [NaN] is the one number that is not [<=] itself. *)
Definition isNaN (a : num) : bool := negb (a <= a).

(* Number.isFinite(a): [a - a] is 0 for a finite number and [NaN] for
   [Infinity], [-Infinity] and [NaN]. *)
Definition isFinite (a : num) : bool := a - a <= lit 0.

(* Math.abs(a - b) <= tol *)
Definition within (a b tol : num) : bool :=
  (a - b <= tol) && (b - a <= tol).


(* The globals [Infinity] and [-Infinity] *)
Definition Infinity : num := lit 1 / lit 0.
Definition minus_Infinity : num := lit (-1) / lit 0.

End Tests.

(** *** Exact numbers with the IEEE special values *)

Inductive xnum : Type :=
  | Fin (q : Qc)     (* a finite number *)
  | PInf             (* Infinity *)
  | NInf             (* -Infinity *)
  | NaN.

Module X.

Definition sgn (q : Qc) : comparison := (q ?= 0)%Qc.

Definition of_sign (c : comparison) : xnum :=
  match c with Gt => PInf | Lt => NInf | Eq => NaN end.

Definition flip (c : comparison) : comparison := CompOpp c.

Definition add (a b : xnum) : xnum :=
  match a, b with
  | NaN, _ | _, NaN => NaN
  | Fin p, Fin q => Fin (p + q)%Qc
  | PInf, NInf | NInf, PInf => NaN
  | PInf, _ | _, PInf => PInf
  | NInf, _ | _, NInf => NInf
  end.

Definition sub (a b : xnum) : xnum :=
  match a, b with
  | NaN, _ | _, NaN => NaN
  | Fin p, Fin q => Fin (p - q)%Qc
  | PInf, PInf | NInf, NInf => NaN
  | PInf, _ | _, NInf => PInf
  | NInf, _ | _, PInf => NInf
  end.

Definition mul (a b : xnum) : xnum :=
  match a, b with
  | NaN, _ | _, NaN => NaN
  | Fin p, Fin q => Fin (p * q)%Qc
  | Fin p, PInf | PInf, Fin p => of_sign (sgn p)
  | Fin p, NInf | NInf, Fin p => of_sign (flip (sgn p))
  | PInf, PInf | NInf, NInf => PInf
  | PInf, NInf | NInf, PInf => NInf
  end.

(* The only zero is the positive one, so [p / 0] takes the sign of [p]. *)
Definition div (a b : xnum) : xnum :=
  match a, b with
  | NaN, _ | _, NaN => NaN
  | Fin p, Fin q =>
      match sgn q with
      | Eq => of_sign (sgn p)
      | _ => Fin (p / q)%Qc
      end
  | Fin _, (PInf | NInf) => Fin 0%Qc
  | PInf, Fin q => match sgn q with Lt => NInf | _ => PInf end
  | NInf, Fin q => match sgn q with Lt => PInf | _ => NInf end
  | (PInf | NInf), (PInf | NInf) => NaN
  end.

Definition le (a b : xnum) : bool :=
  match a, b with
  | NaN, _ | _, NaN => false
  | Fin p, Fin q => Qle_bool p q
  | NInf, _ | _, PInf => true
  | _, _ => false
  end.

Definition lt (a b : xnum) : bool :=
  match a, b with
  | NaN, _ | _, NaN => false
  | Fin p, Fin q => negb (Qle_bool q p)
  | PInf, _ | _, NInf => false
  | _, _ => true
  end.

(* Math.round: the nearest integer, a tie going up. *)
Definition round (a : xnum) : xnum :=
  match a with
  | Fin q => Fin (Q2Qc (inject_Z (Qfloor (q + Q2Qc (1 # 2))%Qc)))
  | _ => a
  end.

Definition max (a b : xnum) : xnum :=
  match a, b with
  | NaN, _ | _, NaN => NaN
  | _, _ => if lt a b then b else a
  end.

Definition min (a b : xnum) : xnum :=
  match a, b with
  | NaN, _ | _, NaN => NaN
  | _, _ => if lt b a then b else a
  end.

(* Number.isFinite *)
Definition finite (a : xnum) : bool :=
  match a with Fin _ => true | _ => false end.

(* Rounding half-up to hundredths, as the specification words [round2]:
   the value scaled by 100, rounded to the integer [h] with
   [h <= 100 q + 1/2 < h + 1]. *)
Definition hundredths (q : Qc) : Z :=
  Qfloor (q * Q2Qc 100 + Q2Qc (1 # 2))%Qc.

End X.

#[export] Instance xnum_number : JSNumber xnum := {|
  lit q := Fin (Q2Qc q);
  num_add := X.add;
  num_sub := X.sub;
  num_mul := X.mul;
  num_div := X.div;
  num_le := X.le;
  num_lt := X.lt;
  Math_round := X.round;
  Math_max := X.max;
  Math_min := X.min
|}.

(** *** Binary64 numbers *)

Module F.

Definition of_Z (z : Z) : float :=
  match z with
  | Z0 => PrimFloat.zero
  | Zpos p => PrimFloat.of_uint63 (Uint63.of_Z (Zpos p))
  | Zneg p => PrimFloat.opp (PrimFloat.of_uint63 (Uint63.of_Z (Zpos p)))
  end.

(* A decimal literal [n/d] with [n] and [d] below 2^53: both convert
   exactly and the division rounds once, to the nearest binary64 value. *)
Definition of_Q (q : Q) : float :=
  PrimFloat.div (of_Z (Qnum q)) (of_Z (Zpos (Qden q))).

Definition is_nan (x : float) : bool := negb (PrimFloat.eqb x x).

(* A zero or a nonzero finite number. *)
Definition finite (x : float) : bool :=
  match Prim2SF x with
  | S754_zero _ | S754_finite _ _ _ => true
  | _ => false
  end.

Definition is_neg_zero (x : float) : bool :=
  match Prim2SF x with S754_zero true => true | _ => false end.

(* Math.round.  A finite [x] is [m * 2^e]; with [e < 0] the result is
   [floor ((2 m + 2^-e) / 2^(1-e))], and with [e >= 0] it is [x] itself. *)
Definition round (x : float) : float :=
  match Prim2SF x with
  | S754_finite s m e =>
      if (0 <=? e)%Z then x
      else
        let sm := if s then Zneg m else Zpos m in
        let n := ((2 * sm + 2 ^ (- e)) / 2 ^ (1 - e))%Z in
        if (n =? 0)%Z then (if s then PrimFloat.neg_zero else PrimFloat.zero)
        else of_Z n
  | _ => x
  end.

Definition max (a b : float) : float :=
  if is_nan a || is_nan b then PrimFloat.nan
  else if PrimFloat.ltb a b then b
  else if PrimFloat.ltb b a then a
  else if is_neg_zero a then b else a.

Definition min (a b : float) : float :=
  if is_nan a || is_nan b then PrimFloat.nan
  else if PrimFloat.ltb a b then a
  else if PrimFloat.ltb b a then b
  else if is_neg_zero a then a else b.

End F.

#[export] Instance float_number : JSNumber float := {|
  lit := F.of_Q;
  num_add := PrimFloat.add;
  num_sub := PrimFloat.sub;
  num_mul := PrimFloat.mul;
  num_div := PrimFloat.div;
  num_le := PrimFloat.leb;
  num_lt := PrimFloat.ltb;
  Math_round := F.round;
  Math_max := F.max;
  Math_min := F.min
|}.

(** *** The two models of JavaScript numbers *)

Inductive number_model : forall (num : Type), JSNumber num -> Prop :=
  | exact_numbers : number_model xnum xnum_number
  | binary64_numbers : number_model float float_number.

(** ** Objects

    A plain JavaScript object used as a dictionary: its own properties in
    insertion order, which is the order [Object.keys] and the spread
    [{...o}] follow for keys that are neither array indices nor
    ["__proto__"] (asset symbols are neither).  A key occurs once
    ([wf_obj]); [obj_set] keeps it so.  A property the object only inherits
    ([prices["constructor"]]) has no [price] and no [change24hPct], and reads
    as a missing entry where the page reads it with [p?.price ?? 0]. *)

Section Objects.
Context {V : Type}.

(* o[k] *)
Fixpoint obj_get (o : list (string * V)) (k : string) : option V :=
  match o with
  | [] => None
  | (k', v) :: o' => if decide (k' = k) then Some v else obj_get o' k
  end.

(* o[k] = v *)
Fixpoint obj_set (o : list (string * V)) (k : string) (v : V)
  : list (string * V) :=
  match o with
  | [] => [(k, v)]
  | (k', v') :: o' =>
      if decide (k' = k) then (k, v) :: o' else (k', v') :: obj_set o' k v
  end.

Definition Object_keys (o : list (string * V)) : list string := o.*1.

(* {...o} *)
Definition spread (o : list (string * V)) : list (string * V) :=
  fold_left (fun acc kv => obj_set acc kv.1 kv.2) o [].

Definition wf_obj (o : list (string * V)) : Prop := NoDup (Object_keys o).

Definition keyset (o : list (string * V)) : gset string :=
  list_to_set (Object_keys o).

End Objects.

(** ** Computations that read and write a state and may throw *)

Definition exn : Type := string.

Inductive outcome (A : Type) : Type :=
  | Returned (a : A)
  | Thrown (e : exn).
Arguments Returned {A} a.
Arguments Thrown {A} e.

Definition M (S A : Type) : Type := S -> outcome A * S.

Definition ret {S A} (a : A) : M S A := fun s => (Returned a, s).

Definition throw {S A} (e : exn) : M S A := fun s => (Thrown e, s).

Definition bind {S A B} (c : M S A) (k : A -> M S B) : M S B :=
  fun s =>
    match c s with
    | (Returned a, s') => k a s'
    | (Thrown e, s') => (Thrown e, s')
    end.

Declare Scope m_scope.
Delimit Scope m_scope with m.
Notation "x <- c ;; k" := (bind c (fun x => k))
  (at level 100, c at next level, right associativity) : m_scope.
Notation "c ;;; k" := (bind c (fun _ => k))
  (at level 100, right associativity) : m_scope.

(* for (const x of xs) { acc = body x acc } *)
Fixpoint for_of {S A B} (xs : list A) (body : A -> B -> M S B) (acc : B)
  : M S B :=
  match xs with
  | [] => ret acc
  | x :: rest => bind (body x acc) (for_of rest body)
  end.

(** ** The price service ([prices.mock.ts]) *)

Module PricePoint.
Record t {num : Type} : Type := {
  symbol : string;
  price : num;
  change24hPct : num
}.
Arguments t num : clear implicits.
End PricePoint.

Abbreviation PriceMap num := (list (string * PricePoint.t num)).

(* The module's variable [state], and how many numbers [Math.random] has
   handed out so far. *)
Record Store {num : Type} : Type := {
  state : PriceMap num;
  drawn : nat
}.
Arguments Store num : clear implicits.

Section PricesMock.
Context {num : Type} `{JSNumber num}.

(* [random n] is what the call number [n] of [Math.random()] returns. *)
Variable random : nat -> num.

Local Open Scope js_scope.
Local Open Scope m_scope.

(* The initial value of [state]. *)
Definition state0 : PriceMap num := [
  ("BTC", {| PricePoint.symbol := "BTC"; PricePoint.price := lit 1185000;
             PricePoint.change24hPct := lit 1.42 |});
  ("ETH", {| PricePoint.symbol := "ETH"; PricePoint.price := lit 62450;
             PricePoint.change24hPct := lit (-0.85) |});
  ("SOL", {| PricePoint.symbol := "SOL"; PricePoint.price := lit 3250;
             PricePoint.change24hPct := lit 3.12 |});
  ("XRP", {| PricePoint.symbol := "XRP"; PricePoint.price := lit 11.8;
             PricePoint.change24hPct := lit 0.24 |})
].

Definition store0 : Store num := {| state := state0; drawn := 0 |}.

Definition Math_random : M (Store num) num :=
  fun w => (Returned (random (drawn w)),
            {| state := state w; drawn := S (drawn w) |}).

Definition get_state : M (Store num) (PriceMap num) :=
  fun w => (Returned (state w), w).

Definition put_state (next : PriceMap num) : M (Store num) unit :=
  fun w => (Returned tt, {| state := next; drawn := drawn w |}).

Definition randBetween (min max : num) : M (Store num) num :=
  u <- Math_random ;;
  ret (u * (max - min) + min).

Definition round2 (n : num) : num :=
  Math_round (n * lit 100) / lit 100.

Definition getMockPrices : M (Store num) (PriceMap num) :=
  st <- get_state ;;
  ret (spread st).

(* The body of the loop of [refreshMockPrices]; reading a property of
   [undefined] throws. *)
Definition walk (st : PriceMap num) (sym : string) (next : PriceMap num)
  : M (Store num) (PriceMap num) :=
  match obj_get st sym with
  | None => throw "TypeError"
  | Some current =>
      driftPct <- randBetween (lit (-1.2)) (lit 1.2) ;;
      let nextPrice :=
        PricePoint.price current * (lit 1 + driftPct / lit 100) in
      delta <- randBetween (lit (-0.6)) (lit 0.6) ;;
      let nextChange := PricePoint.change24hPct current + delta in
      ret (obj_set next sym
             {| PricePoint.symbol := sym;
                PricePoint.price := round2 nextPrice;
                PricePoint.change24hPct := round2 nextChange |})
  end.

(* The timer the function first waits on passes no value and touches no
   state; it is left out. *)
Definition refreshMockPrices : M (Store num) (PriceMap num) :=
  st <- get_state ;;
  next <- for_of (Object_keys st) (walk st) [] ;;
  put_state next ;;;
  st' <- get_state ;;
  ret (spread st').

(** *** What the specification says of a refresh *)

(* The number [randBetween min max] makes of the draw number [n]. *)
Definition sample (n : nat) (min max : num) : num :=
  random n * (max - min) + min.

(* A price point after a refresh that sampled [driftPct] and [delta] for
   it: price [round2 (price * (1 + driftPct / 100))], 24h change
   [round2 (change24hPct + delta)]. *)
Definition advanced (sym : string) (p : PricePoint.t num)
    (driftPct delta : num) : PricePoint.t num :=
  {| PricePoint.symbol := sym;
     PricePoint.price :=
       round2 (PricePoint.price p * (lit 1 + driftPct / lit 100));
     PricePoint.change24hPct := round2 (PricePoint.change24hPct p + delta) |}.

(* The drift and the delta sampled for the symbol at position [i] of a
   refresh that starts after [n] draws. *)
Definition driftPct_at (n i : nat) : num :=
  sample (n + 2 * i) (lit (-1.2)) (lit 1.2).

Definition delta_at (n i : nat) : num :=
  sample (n + 2 * i + 1) (lit (-0.6)) (lit 0.6).

(* Every symbol advanced by its own samples, draws counted from [n]. *)
Fixpoint advance_from (n : nat) (es : PriceMap num) : PriceMap num :=
  match es with
  | [] => []
  | (k, p) :: rest =>
      (k, advanced k p (sample n (lit (-1.2)) (lit 1.2))
                       (sample (S n) (lit (-0.6)) (lit 0.6)))
      :: advance_from (S (S n)) rest
  end.

(* The states of the store a session can reach: the module starts in
   [store0], and only the two exported functions touch it. *)
Inductive reachable : Store num -> Prop :=
  | reach_init : reachable store0
  | reach_get w : reachable w -> reachable (getMockPrices w).2
  | reach_refresh w : reachable w -> reachable (refreshMockPrices w).2.

(* The store after [n] refreshes in a row. *)
Definition refreshed (n : nat) (w : Store num) : Store num :=
  Nat.iter n (fun w => (refreshMockPrices w).2) w.

End PricesMock.

(* Draws that walk the 24h change of BTC from its seed 1.42 down to -100:
   0 every time, which samples a delta of -0.6 (and a drift of -1.2), but
   for the delta of BTC in the refresh number 170 (the draw number
   8 * 169 + 1), where 0.484375 samples -0.01875 and -99.98 - 0.01875
   rounds to -100. *)
Definition draws_to_minus_100 {num : Type} `{JSNumber num} (n : nat) : num :=
  if Nat.eqb n 1353 then lit 0.484375 else lit 0.

(** ** The dashboard page ([DashboardPage]) *)

Module Holding.
Record t {num : Type} : Type := {
  id : string;
  symbol : string;
  name : string;
  amount : num
}.
Arguments t num : clear implicits.
End Holding.

(* What [rows] returns for a holding: [{...h, priceNow, change24hPct,
   valueNow, valueChange}]. *)
Module Row.
Record t {num : Type} : Type := {
  id : string;
  symbol : string;
  name : string;
  amount : num;
  priceNow : num;
  change24hPct : num;
  valueNow : num;
  valueChange : num
}.
Arguments t num : clear implicits.
End Row.

(* The component's state: [currency], [prices], [loadingPrices]. *)
Record Page {num : Type} : Type := {
  currency : string;
  prices : PriceMap num;
  loadingPrices : bool
}.
Arguments Page num : clear implicits.

Section DashboardPage.
Context {num : Type} `{JSNumber num}.

Local Open Scope js_scope.

Definition clamp (n min max : num) : num :=
  Math_max min (Math_min max n).

Definition holdings : list (Holding.t num) := [
  {| Holding.id := "btc"; Holding.symbol := "BTC"; Holding.name := "Bitcoin";
     Holding.amount := lit 0.0523 |};
  {| Holding.id := "eth"; Holding.symbol := "ETH"; Holding.name := "Ethereum";
     Holding.amount := lit 0.84 |};
  {| Holding.id := "sol"; Holding.symbol := "SOL"; Holding.name := "Solana";
     Holding.amount := lit 12.4 |};
  {| Holding.id := "xrp"; Holding.symbol := "XRP"; Holding.name := "XRP";
     Holding.amount := lit 580 |}
].

(* priceNow / (1 + change24hPct / 100), as [rows] and [dayChangePct] both
   write it. *)
Definition priceYesterday (priceNow change24hPct : num) : num :=
  priceNow / (lit 1 + change24hPct / lit 100).

Definition row (prices : PriceMap num) (h : Holding.t num) : Row.t num :=
  let p := obj_get prices (Holding.symbol h) in
  let priceNow := default (lit 0) (PricePoint.price <$> p) in
  let change24hPct := default (lit 0) (PricePoint.change24hPct <$> p) in
  let priceYesterday := priceYesterday priceNow change24hPct in
  let valueNow := Holding.amount h * priceNow in
  let valueYesterday := Holding.amount h * priceYesterday in
  let valueChange := valueNow - valueYesterday in
  {| Row.id := Holding.id h;
     Row.symbol := Holding.symbol h;
     Row.name := Holding.name h;
     Row.amount := Holding.amount h;
     Row.priceNow := priceNow;
     Row.change24hPct := change24hPct;
     Row.valueNow := valueNow;
     Row.valueChange := valueChange |}.

Definition rows (hs : list (Holding.t num)) (prices : PriceMap num)
  : list (Row.t num) :=
  map (row prices) hs.

Definition totalBalance (rows : list (Row.t num)) : num :=
  fold_left (fun sum r => sum + Row.valueNow r) rows (lit 0).

Definition dayChangeAmount (rows : list (Row.t num)) : num :=
  fold_left (fun sum r => sum + Row.valueChange r) rows (lit 0).

Definition yesterdayTotal (rows : list (Row.t num)) : num :=
  fold_left
    (fun sum r =>
       let priceYesterday :=
         priceYesterday (Row.priceNow r) (Row.change24hPct r) in
       sum + Row.amount r * priceYesterday)
    rows (lit 0).

Definition dayChangePct (rows : list (Row.t num)) (totalBalance : num) : num :=
  let yesterday := yesterdayTotal rows in
  if yesterday <= lit 0 then lit 0
  else ((totalBalance - yesterday) / yesterday) * lit 100.


(* The parenthetical percentage of the day-change marker:
   [formatPct(clamp(dayChangePct, -99, 999))].  [toFixed] is the platform's
   [Number.prototype.toFixed]. *)
Variable toFixed : num -> nat -> string.

Definition formatPct (v : num) : string :=
  let sign := if v > lit 0 then "+" else "" in
  sign ++ toFixed v 2 ++ "%".

Definition dayChangeShown (rows : list (Row.t num)) (totalBalance : num)
  : num :=
  clamp (dayChangePct rows totalBalance) (lit (-99)) (lit 999).

Definition dayChangeText (rows : list (Row.t num)) (totalBalance : num)
  : string :=
  formatPct (dayChangeShown rows totalBalance).

(* [disabled={loadingPrices}] on the two buttons whose [onClick] is
   [handleRefreshPrices]. *)
Definition panelActionDisabled (pg : Page num) : bool := loadingPrices pg.
Definition miniRefreshDisabled (pg : Page num) : bool := loadingPrices pg.

(** *** The asynchronous handler

    An [async] function is a tree of its effects on the component's state;
    at [await refreshMockPrices()] it stops, and goes on with the outcome of
    the awaited promise. *)

Inductive Proc (A : Type) : Type :=
  | Ret (a : A)
  | Throw (e : exn)
  | SetLoadingPrices (b : bool) (k : Proc A)
  | SetPrices (next : PriceMap num) (k : Proc A)
  | AwaitRefresh (k : outcome (PriceMap num) -> Proc A).
Arguments Ret {A} a.
Arguments Throw {A} e.
Arguments SetLoadingPrices {A} b k.
Arguments SetPrices {A} next k.
Arguments AwaitRefresh {A} k.

Fixpoint proc_bind {A B} (p : Proc A) (f : A -> Proc B) : Proc B :=
  match p with
  | Ret a => f a
  | Throw e => Throw e
  | SetLoadingPrices b k => SetLoadingPrices b (proc_bind k f)
  | SetPrices next k => SetPrices next (proc_bind k f)
  | AwaitRefresh k => AwaitRefresh (fun r => proc_bind (k r) f)
  end.

(* try { body } finally { fin } *)
Fixpoint try_finally {A} (body : Proc A) (fin : Proc unit) : Proc A :=
  match body with
  | Ret a => proc_bind fin (fun _ => Ret a)
  | Throw e => proc_bind fin (fun _ => Throw e)
  | SetLoadingPrices b k => SetLoadingPrices b (try_finally k fin)
  | SetPrices next k => SetPrices next (try_finally k fin)
  | AwaitRefresh k => AwaitRefresh (fun r => try_finally (k r) fin)
  end.

Definition setLoadingPrices (b : bool) : Proc unit :=
  SetLoadingPrices b (Ret tt).

Definition setPrices (next : PriceMap num) : Proc unit :=
  SetPrices next (Ret tt).

(* await refreshMockPrices(): the value of a fulfilled promise, the reason
   of a rejected one thrown. *)
Definition await_refreshMockPrices : Proc (PriceMap num) :=
  AwaitRefresh
    (fun r => match r with Returned next => Ret next | Thrown e => Throw e end).

Definition handleRefreshPrices : Proc unit :=
  proc_bind (setLoadingPrices true) (fun _ =>
  try_finally
    (proc_bind await_refreshMockPrices (fun next => setPrices next))
    (setLoadingPrices false)).

(* What is left of [handleRefreshPrices] once the promise it awaits has
   settled with [r]. *)
Definition afterAwait (r : outcome (PriceMap num)) : Proc unit :=
  try_finally
    (proc_bind
       match r with Returned next => Ret next | Thrown e => Throw e end
       (fun next => setPrices next))
    (setLoadingPrices false).

(* Running a handler up to its end or to its next [await]. *)
Inductive status (A : Type) : Type :=
  | Finished (r : outcome A)
  | Suspended (k : outcome (PriceMap num) -> Proc A).
Arguments Finished {A} r.
Arguments Suspended {A} k.

Fixpoint run {A} (p : Proc A) (pg : Page num) : status A * Page num :=
  match p with
  | Ret a => (Finished (Returned a), pg)
  | Throw e => (Finished (Thrown e), pg)
  | SetLoadingPrices b k =>
      run k {| currency := currency pg; prices := prices pg;
               loadingPrices := b |}
  | SetPrices next k =>
      run k {| currency := currency pg; prices := next;
               loadingPrices := loadingPrices pg |}
  | AwaitRefresh k => (Suspended k, pg)
  end.

(** *** The page and the service together *)

(* [page]: the state of the component, as the calls of its setters have
   left it.  [view]: the state the component was last rendered with; the
   [disabled] attribute of the buttons in the document comes from it, and
   stays as it is until the component is rendered again.  [pending]: the
   continuations of the calls of [handleRefreshPrices] that wait for their
   promise, oldest first. *)
Record App : Type := {
  page : Page num;
  view : Page num;
  store : Store num;
  pending : list (outcome (PriceMap num) -> Proc unit)
}.

(* The service the page imports as [refreshMockPrices]. *)
Variable service : M (Store num) (PriceMap num).

(* useState("ZAR"), useState({}), useState(false) *)
Definition page0 : Page num :=
  {| currency := "ZAR"; prices := []; loadingPrices := false |}.

(* The first render, with the initial state, and the effect run once after
   it: setPrices(getMockPrices()). *)
Definition mount (st : Store num) : App :=
  match getMockPrices st with
  | (Returned snapshot, st') =>
      {| page := {| currency := currency page0; prices := snapshot;
                    loadingPrices := loadingPrices page0 |};
         view := page0; store := st'; pending := [] |}
  | (Thrown _, st') =>
      {| page := page0; view := page0; store := st'; pending := [] |}
  end.

(* The component is rendered again, with its state as it is now. *)
Definition render (a : App) : App :=
  {| page := page a; view := page a; store := store a;
     pending := pending a |}.

(* A call of [handleRefreshPrices]. *)
Definition invoke (a : App) : App :=
  match run handleRefreshPrices (page a) with
  | (Suspended k, pg) =>
      {| page := pg; view := view a; store := store a;
         pending := pending a ++ [k] |}
  | (Finished _, pg) =>
      {| page := pg; view := view a; store := store a;
         pending := pending a |}
  end.

(* A click on a refresh button.  A button that was rendered [disabled]
   dispatches no event; one that was not calls the handler, whatever the
   busy flag has become since that render. *)
Definition click (a : App) : App :=
  if panelActionDisabled (view a) then a else invoke a.

(* The oldest awaited promise settles (the timers all wait 200 ms, so they
   fire in the order of the calls) and its handler runs on. *)
Definition settle (a : App) : App :=
  match pending a with
  | [] => a
  | k :: rest =>
      let '(r, st) := service (store a) in
      let '(_, pg) := run (k r) (page a) in
      {| page := pg; view := view a; store := st; pending := rest |}
  end.

Inductive event : Type := Click | Settle | Render.

Definition step (a : App) (e : event) : App :=
  match e with
  | Click => click a
  | Settle => settle a
  | Render => render a
  end.

Definition steps (a : App) (es : list event) : App := fold_left step es a.

(* The events [es], the component rendered again after each of them. *)
Definition each_rendered (es : list event) : list event :=
  flat_map (fun e => [e; Render]) es.

(* Idle with no call in flight, or refreshing with exactly one. *)
Definition one_in_flight (a : App) : Prop :=
  (loadingPrices (page a) = false /\ pending a = [])
  \/ (loadingPrices (page a) = true /\ pending a = [afterAwait]).

(* The two states of the refresh machine, read off the busy flag. *)
Inductive phase : Type := Idle | Refreshing.

Definition phase_of (pg : Page num) : phase :=
  if loadingPrices pg then Refreshing else Idle.

(* The holdings and the price map of the specification's worked example:
   0.0523 BTC at a price of 1185000 with a 24h change of 1.42. *)
Definition example_holdings : list (Holding.t num) := [
  {| Holding.id := "btc"; Holding.symbol := "BTC"; Holding.name := "Bitcoin";
     Holding.amount := lit 0.0523 |}
].

Definition example_prices : PriceMap num := [
  ("BTC", {| PricePoint.symbol := "BTC"; PricePoint.price := lit 1185000;
             PricePoint.change24hPct := lit 1.42 |})
].

End DashboardPage.

Arguments Ret {num A} a.
Arguments Throw {num A} e.
Arguments SetLoadingPrices {num A} b k.
Arguments SetPrices {num A} next k.
Arguments AwaitRefresh {num A} k.
Arguments Finished {num A} r.
Arguments Suspended {num A} k.

(** ** The hooks of the component

    [DashboardPage] is a function React calls at every render.  Between two
    calls React keeps, for this component, the cells of its hooks: the three
    states, and for each [useMemo] the value computed last and the
    dependencies it was computed for.  [useMemo] computes again only when a
    dependency is not, for [Object.is], the one of the render before: what
    the page shows comes out of these cells.

    An object or an array is, for [Object.is], the same as itself only.
    Each one is modelled with the address it was created at; a new one gets
    the next address, as [{ ...state }] in the service and [holdings.map]
    on the page create a new one at every call. *)

(* [Object.is] on two numbers: true only of the same number ([NaN] is the
   same value as [NaN]; [0] and [-0] are two values). *)
Class SameValue (num : Type) : Type := {
  same_value : num -> num -> bool;
  same_value_eq : forall x y : num, same_value x y = true -> x = y
}.

#[export] Instance float_same_value : SameValue float := {|
  same_value := PrimFloat.Leibniz.eqb;
  same_value_eq := fun x y => proj1 (FloatAxioms.Leibniz.eqb_spec x y)
|}.

Definition xnum_same (a b : xnum) : bool :=
  match a, b with
  | Fin p, Fin q => Qeq_bool p q
  | PInf, PInf | NInf, NInf | NaN, NaN => true
  | _, _ => false
  end.

#[export] Instance xnum_same_value : SameValue xnum := {|
  same_value := xnum_same;
  same_value_eq := fun a b =>
    match a, b return xnum_same a b = true -> a = b with
    | Fin p, Fin q =>
        fun e => f_equal Fin (Qc_is_canon p q (Qeq_bool_eq p q e))
    | PInf, PInf | NInf, NInf | NaN, NaN => fun _ => eq_refl
    | _, _ => fun e => False_ind _ (Bool.diff_false_true e)
    end
|}.

(* An object or an array: the address it was created at, and what it
   holds. *)
Record Ref (A : Type) : Type := {
  address : nat;
  target : A
}.
Arguments address {A} r.
Arguments target {A} r.

Section Hooks.
Context {num : Type} `{JSNumber num} `{SameValue num}.

Local Open Scope m_scope.

(* A dependency of a [useMemo]: an object or an array, or a number. *)
Inductive dep : Type :=
  | DObj (a : nat)
  | DNum (x : num).

Definition Object_is (x y : dep) : bool :=
  match x, y with
  | DObj a, DObj b => Nat.eqb a b
  | DNum u, DNum v => same_value u v
  | _, _ => false
  end.

(* React's [areHookInputsEqual]: the dependencies of this render against
   those of the render before, one by one. *)
Fixpoint areHookInputsEqual (nextDeps prevDeps : list dep) : bool :=
  match nextDeps, prevDeps with
  | x :: nextDeps, y :: prevDeps =>
      Object_is x y && areHookInputsEqual nextDeps prevDeps
  | _, _ => true
  end.

(* The cell of a [useMemo]: [[value, deps]]. *)
Record Memo (A : Type) : Type := {
  memoized : A;
  memo_deps : list dep
}.
Arguments memoized {A} m.
Arguments memo_deps {A} m.

(* The cells of the hooks of [DashboardPage].  [fresh] is the next address
   not used yet; [prices_ref] the address of the object the state [prices]
   holds. *)
Record Hooks : Type := {
  fresh : nat;
  state_cells : Page num;
  prices_ref : nat;
  holdings_cell : option (Memo (Ref (list (Holding.t num))));
  rows_cell : option (Memo (Ref (list (Row.t num))));
  totalBalance_cell : option (Memo num);
  dayChangeAmount_cell : option (Memo num);
  dayChangePct_cell : option (Memo num)
}.

(* What a render can reach: the cells of the hooks, and the store of the
   price service the page imports. *)
Record World : Type := {
  hooks : Hooks;
  service_store : Store num
}.

Definition get_hooks : M World Hooks := fun w => (Returned (hooks w), w).

Definition put_hooks (h : Hooks) : M World unit :=
  fun w => (Returned tt, {| hooks := h; service_store := service_store w |}).

Definition set_holdings_cell c (h : Hooks) : Hooks :=
  {| fresh := fresh h; state_cells := state_cells h;
     prices_ref := prices_ref h; holdings_cell := c;
     rows_cell := rows_cell h; totalBalance_cell := totalBalance_cell h;
     dayChangeAmount_cell := dayChangeAmount_cell h;
     dayChangePct_cell := dayChangePct_cell h |}.

Definition set_rows_cell c (h : Hooks) : Hooks :=
  {| fresh := fresh h; state_cells := state_cells h;
     prices_ref := prices_ref h; holdings_cell := holdings_cell h;
     rows_cell := c; totalBalance_cell := totalBalance_cell h;
     dayChangeAmount_cell := dayChangeAmount_cell h;
     dayChangePct_cell := dayChangePct_cell h |}.

Definition set_totalBalance_cell c (h : Hooks) : Hooks :=
  {| fresh := fresh h; state_cells := state_cells h;
     prices_ref := prices_ref h; holdings_cell := holdings_cell h;
     rows_cell := rows_cell h; totalBalance_cell := c;
     dayChangeAmount_cell := dayChangeAmount_cell h;
     dayChangePct_cell := dayChangePct_cell h |}.

Definition set_dayChangeAmount_cell c (h : Hooks) : Hooks :=
  {| fresh := fresh h; state_cells := state_cells h;
     prices_ref := prices_ref h; holdings_cell := holdings_cell h;
     rows_cell := rows_cell h; totalBalance_cell := totalBalance_cell h;
     dayChangeAmount_cell := c;
     dayChangePct_cell := dayChangePct_cell h |}.

Definition set_dayChangePct_cell c (h : Hooks) : Hooks :=
  {| fresh := fresh h; state_cells := state_cells h;
     prices_ref := prices_ref h; holdings_cell := holdings_cell h;
     rows_cell := rows_cell h; totalBalance_cell := totalBalance_cell h;
     dayChangeAmount_cell := dayChangeAmount_cell h;
     dayChangePct_cell := c |}.

(* An array literal, or the array [map] returns: a new array, at the next
   address. *)
Definition new_array {A} (v : A) : M World (Ref A) :=
  h <- get_hooks ;;
  put_hooks
    {| fresh := S (fresh h); state_cells := state_cells h;
       prices_ref := prices_ref h; holdings_cell := holdings_cell h;
       rows_cell := rows_cell h; totalBalance_cell := totalBalance_cell h;
       dayChangeAmount_cell := dayChangeAmount_cell h;
       dayChangePct_cell := dayChangePct_cell h |} ;;;
  ret {| address := fresh h; target := v |}.

(* [useMemo(nextCreate, deps)] on the cell [cell]: the value of the render
   before when there is one and the dependencies are the same; otherwise
   the value [nextCreate] computes now, which the cell keeps with [deps]. *)
Definition useMemo {A} (cell : Hooks -> option (Memo A))
    (set_cell : option (Memo A) -> Hooks -> Hooks)
    (nextCreate : M World A) (deps : list dep) : M World A :=
  let compute :=
    nextValue <- nextCreate ;;
    h <- get_hooks ;;
    put_hooks
      (set_cell (Some {| memoized := nextValue; memo_deps := deps |}) h) ;;;
    ret nextValue in
  h <- get_hooks ;;
  match cell h with
  | Some prev =>
      if areHookInputsEqual deps (memo_deps prev)
      then ret (memoized prev)
      else compute
  | None => compute
  end.

(* What a render derives for the page to show. *)
Record Derived : Type := {
  shown_rows : list (Row.t num);
  shown_totalBalance : num;
  shown_dayChangeAmount : num;
  shown_dayChangePct : num
}.

(* The derivations of [DashboardPage], in the order of its hooks. *)
Definition DashboardPage : M World Derived :=
  h <- get_hooks ;;
  let prices :=
    {| address := prices_ref h; target := prices (state_cells h) |} in
  holdings <- useMemo holdings_cell set_holdings_cell
                (new_array holdings) [] ;;
  rows <- useMemo rows_cell set_rows_cell
            (new_array (rows (target holdings) (target prices)))
            [DObj (address holdings); DObj (address prices)] ;;
  totalBalance <- useMemo totalBalance_cell set_totalBalance_cell
                    (ret (totalBalance (target rows)))
                    [DObj (address rows)] ;;
  dayChangeAmount <- useMemo dayChangeAmount_cell set_dayChangeAmount_cell
                       (ret (dayChangeAmount (target rows)))
                       [DObj (address rows)] ;;
  dayChangePct <- useMemo dayChangePct_cell set_dayChangePct_cell
                    (ret (dayChangePct (target rows) totalBalance))
                    [DObj (address rows); DNum totalBalance] ;;
  ret {| shown_rows := target rows;
         shown_totalBalance := totalBalance;
         shown_dayChangeAmount := dayChangeAmount;
         shown_dayChangePct := dayChangePct |}.

(* What happens to the component and around it between two renders. *)
Inductive update : Type :=
  | Rendered
  | PricesSet (next : PriceMap num)
  | LoadingPricesSet (b : bool)
  | ServiceRan (st : Store num).

(* [Rendered]: React calls [DashboardPage].  [PricesSet next]:
   [setPrices(next)], where [next] is the new object [getMockPrices] or
   [refreshMockPrices] has just returned.  [LoadingPricesSet b]:
   [setLoadingPrices(b)].  [ServiceRan st]: the price service has run, and
   its store is now [st]. *)
Definition apply_update (w : World) (u : update) : World :=
  let h := hooks w in
  match u with
  | Rendered => (DashboardPage w).2
  | PricesSet next =>
      {| hooks :=
           {| fresh := S (fresh h);
              state_cells :=
                {| currency := currency (state_cells h); prices := next;
                   loadingPrices := loadingPrices (state_cells h) |};
              prices_ref := fresh h;
              holdings_cell := holdings_cell h; rows_cell := rows_cell h;
              totalBalance_cell := totalBalance_cell h;
              dayChangeAmount_cell := dayChangeAmount_cell h;
              dayChangePct_cell := dayChangePct_cell h |};
         service_store := service_store w |}
  | LoadingPricesSet b =>
      {| hooks :=
           {| fresh := fresh h;
              state_cells :=
                {| currency := currency (state_cells h);
                   prices := prices (state_cells h); loadingPrices := b |};
              prices_ref := prices_ref h;
              holdings_cell := holdings_cell h; rows_cell := rows_cell h;
              totalBalance_cell := totalBalance_cell h;
              dayChangeAmount_cell := dayChangeAmount_cell h;
              dayChangePct_cell := dayChangePct_cell h |};
         service_store := service_store w |}
  | ServiceRan st => {| hooks := hooks w; service_store := st |}
  end.

(* Before the first render: the initial states, [{}] at the address 0, and
   no memo yet. *)
Definition first_world (st : Store num) : World :=
  {| hooks :=
       {| fresh := 1; state_cells := page0; prices_ref := 0;
          holdings_cell := None; rows_cell := None;
          totalBalance_cell := None; dayChangeAmount_cell := None;
          dayChangePct_cell := None |};
     service_store := st |}.

Definition after_updates (st : Store num) (us : list update) : World :=
  fold_left apply_update us (first_world st).

(* The rows and the aggregates as [rows], [totalBalance], [dayChangeAmount]
   and [dayChangePct] derive them from a price map. *)
Definition derived_from (m : PriceMap num) : Derived :=
  {| shown_rows := rows holdings m;
     shown_totalBalance := totalBalance (rows holdings m);
     shown_dayChangeAmount := dayChangeAmount (rows holdings m);
     shown_dayChangePct :=
       dayChangePct (rows holdings m) (totalBalance (rows holdings m)) |}.

(* What the cells hold is what was derived from the objects they name: the
   invariant of the renders. *)
Definition number_cell_fits (h : Hooks) (cell : option (Memo num))
    (f : list (Row.t num) -> num) : Prop :=
  forall c, cell = Some c ->
    exists ra,
      memo_deps c = [DObj ra]
      /\ (ra < fresh h)%nat
      /\ forall rc, rows_cell h = Some rc -> address (memoized rc) = ra ->
           memoized c = f (target (memoized rc)).

Definition cells_fit (h : Hooks) : Prop :=
  (prices_ref h < fresh h)%nat
  /\ (forall c, holdings_cell h = Some c ->
        target (memoized c) = holdings)
  /\ (forall c, rows_cell h = Some c ->
        (address (memoized c) < fresh h)%nat
        /\ exists ha pa,
             memo_deps c = [DObj ha; DObj pa]
             /\ (pa < fresh h)%nat
             /\ (pa = prices_ref h ->
                 target (memoized c)
                 = rows holdings (prices (state_cells h))))
  /\ number_cell_fits h (totalBalance_cell h) totalBalance
  /\ number_cell_fits h (dayChangeAmount_cell h) dayChangeAmount
  /\ (forall c, dayChangePct_cell h = Some c ->
        exists ra t,
          memo_deps c = [DObj ra; DNum t]
          /\ (ra < fresh h)%nat
          /\ forall rc, rows_cell h = Some rc ->
               address (memoized rc) = ra ->
               memoized c = dayChangePct (target (memoized rc)) t).

(* What the hooks of a render leave as it is: the states of the component
   and the store of the service. *)
Definition same_frame (w w1 : World) : Prop :=
  state_cells (hooks w1) = state_cells (hooks w)
  /\ prices_ref (hooks w1) = prices_ref (hooks w)
  /\ service_store w1 = service_store w.

End Hooks.

Arguments DObj {num} a.
Arguments DNum {num} x.
Arguments memoized {num A} m.
Arguments memo_deps {num A} m.

(** * Properties *)

(** ** Objects *)

Section ObjectFacts.
Context {V : Type}.
Implicit Types (o acc : list (string * V)) (k : string) (v : V).

Lemma obj_get_set o k v k' :
  obj_get (obj_set o k v) k' = if decide (k = k') then Some v else obj_get o k'.
Proof.
  induction o as [|[k0 v0] o IH]; csimpl.
  - reflexivity.
  - destruct (decide (k0 = k)) as [->|Hne]; csimpl.
    + destruct (decide (k = k')); reflexivity.
    + rewrite IH. destruct (decide (k0 = k')) as [->|]; [|reflexivity].
      destruct (decide (k = k')); [congruence | reflexivity].
Qed.

Lemma obj_get_is_Some o k : k ∈ Object_keys o -> is_Some (obj_get o k).
Proof.
  unfold Object_keys. induction o as [|[k0 v0] o IH]; csimpl.
  - intros Hin. inversion Hin.
  - intros Hin. destruct (decide (k0 = k)); [eexists; reflexivity|].
    apply IH. apply elem_of_cons in Hin as [?|?]; [congruence | assumption].
Qed.

Lemma obj_get_None o k : k ∉ Object_keys o -> obj_get o k = None.
Proof.
  unfold Object_keys. induction o as [|[k0 v0] o IH]; csimpl; [reflexivity|].
  intros Hnin. apply not_elem_of_cons in Hnin as [Hne Hnin].
  destruct (decide (k0 = k)); [congruence | auto].
Qed.

Lemma obj_set_fresh o k v :
  k ∉ Object_keys o -> obj_set o k v = o ++ [(k, v)].
Proof.
  unfold Object_keys. induction o as [|[k0 v0] o IH]; csimpl; [reflexivity|].
  intros Hnin. apply not_elem_of_cons in Hnin as [Hne Hnin].
  destruct (decide (k0 = k)); [congruence|]. rewrite IH; auto.
Qed.

Lemma keyset_obj_set o k v : keyset (obj_set o k v) = {[ k ]} ∪ keyset o.
Proof.
  unfold keyset, Object_keys. induction o as [|[k0 v0] o IH]; csimpl.
  - set_solver.
  - destruct (decide (k0 = k)) as [->|]; csimpl; [set_solver|].
    rewrite IH. set_solver.
Qed.

Lemma keyset_fold_obj_set (l : list (string * V)) acc :
  keyset (fold_left (fun a kv => obj_set a kv.1 kv.2) l acc)
  = keyset acc ∪ keyset l.
Proof.
  revert acc. induction l as [|[k v] l IH]; intros acc; csimpl.
  - unfold keyset at 3. csimpl. set_solver.
  - rewrite IH, keyset_obj_set. unfold keyset at 4. csimpl.
    fold (Object_keys l). fold (keyset l). set_solver.
Qed.

Lemma keyset_spread o : keyset (spread o) = keyset o.
Proof.
  unfold spread. rewrite keyset_fold_obj_set. unfold keyset at 1. csimpl.
  set_solver.
Qed.

Lemma fold_obj_set_fresh (l : list (string * V)) acc :
  NoDup (Object_keys (acc ++ l)) ->
  fold_left (fun a kv => obj_set a kv.1 kv.2) l acc = acc ++ l.
Proof.
  revert acc. induction l as [|[k v] l IH]; intros acc Hnd; csimpl.
  - rewrite app_nil_r. reflexivity.
  - assert (Hk : k ∉ Object_keys acc).
    { unfold Object_keys in *. rewrite fmap_app in Hnd. csimpl in Hnd.
      apply NoDup_app in Hnd as (_ & Hdisj & _).
      intros Hin. apply (Hdisj k Hin). left. }
    rewrite (obj_set_fresh _ _ _ Hk). rewrite IH.
    + rewrite <- app_assoc. reflexivity.
    + rewrite <- app_assoc. exact Hnd.
Qed.

(* The copy of a well-formed object is that object, property for property. *)
Lemma spread_wf o : wf_obj o -> spread o = o.
Proof.
  intros Hwf. unfold spread. rewrite fold_obj_set_fresh; [reflexivity|].
  exact Hwf.
Qed.

Lemma obj_get_elem_of o k v : wf_obj o -> (k, v) ∈ o -> obj_get o k = Some v.
Proof.
  unfold wf_obj, Object_keys. induction o as [|[k0 v0] o IH]; csimpl.
  - intros _ Hin. inversion Hin.
  - intros Hnd Hin. apply NoDup_cons in Hnd as [Hk0 Hnd].
    apply elem_of_cons in Hin as [Heq|Hin].
    + injection Heq as -> ->. destruct (decide (k0 = k0)); congruence.
    + destruct (decide (k0 = k)) as [->|]; [|auto].
      exfalso. apply Hk0. apply list_elem_of_fmap. exists (k, v). auto.
Qed.

End ObjectFacts.
(** ** Exact arithmetic *)

Section ExactFacts.
Local Open Scope Qc_scope.
Implicit Types (p q t : Qc).

Lemma this_Q2Qc (a : Q) : (this (Q2Qc a) == a)%Q.
Proof. apply Qred_correct. Qed.

Lemma this_add p q : (this (p + q) == this p + this q)%Q.
Proof. apply Qred_correct. Qed.

Lemma this_mul p q : (this (p * q) == this p * this q)%Q.
Proof. apply Qred_correct. Qed.

Lemma this_opp p : (this (- p) == - this p)%Q.
Proof. apply Qred_correct. Qed.

Lemma this_sub p q : (this (p - q) == this p - this q)%Q.
Proof.
  unfold Qcminus. rewrite this_add, this_opp. reflexivity.
Qed.

Lemma this_inv p : (this (/ p) == / this p)%Q.
Proof. apply Qred_correct. Qed.

Lemma this_div p q : (this (p / q) == this p / this q)%Q.
Proof.
  unfold Qcdiv. rewrite this_mul, this_inv. reflexivity.
Qed.

Lemma sgn_Eq q : X.sgn q = Eq <-> q = 0.
Proof. unfold X.sgn. symmetry. apply Qceq_alt. Qed.

Lemma sgn_Gt q : X.sgn q = Gt <-> 0 < q.
Proof. unfold X.sgn. symmetry. apply (Qcgt_alt q 0). Qed.

Lemma sgn_Lt q : X.sgn q = Lt <-> q < 0.
Proof. unfold X.sgn. symmetry. apply (Qclt_alt q 0). Qed.

End ExactFacts.

(* Equations between closed exact numbers, by computation. *)
Ltac xnum_eq :=
  vm_compute;
  first [ reflexivity
        | f_equal; apply Qc_is_canon; reflexivity
        | do 2 f_equal; apply Qc_is_canon; reflexivity ].
(** ** Arithmetic on exact numbers *)

Section XnumFacts.
Implicit Types (a b x : xnum) (p q : Qc).

Lemma X_le_Fin p q : X.le (Fin p) (Fin q) = true <-> (p <= q)%Qc.
Proof. apply Qle_bool_iff. Qed.

Lemma X_lt_Fin p q : X.lt (Fin p) (Fin q) = true <-> (p < q)%Qc.
Proof.
  simpl. rewrite negb_true_iff. unfold Qclt. split.
  - intros Hb. apply Qnot_le_lt. intros Hle.
    apply Qle_bool_iff in Hle. congruence.
  - intros Hlt. destruct (Qle_bool q p) eqn:Hb; [|reflexivity].
    apply Qle_bool_iff in Hb. exfalso. apply (Qlt_not_le _ _ Hlt Hb).
Qed.

Lemma of_sign_not_finite c : X.finite (X.of_sign c) = false.
Proof. destruct c; reflexivity. Qed.

Lemma add_not_finite_r a b : X.finite b = false -> X.finite (X.add a b) = false.
Proof. destruct a, b; simpl; congruence. Qed.

Lemma add_not_finite_l a b : X.finite a = false -> X.finite (X.add a b) = false.
Proof. destruct a, b; simpl; congruence. Qed.

Lemma sub_not_finite_r a b : X.finite b = false -> X.finite (X.sub a b) = false.
Proof. destruct a, b; simpl; congruence. Qed.

Lemma mul_not_finite_r a b : X.finite b = false -> X.finite (X.mul a b) = false.
Proof.
  destruct a, b; simpl; try congruence; intros _; apply of_sign_not_finite.
Qed.

(* Dividing by zero gives no finite number. *)
Lemma div_zero_not_finite a : X.finite (X.div a (Fin 0%Qc)) = false.
Proof.
  destruct a; simpl; try reflexivity. apply of_sign_not_finite.
Qed.

(* 1 + (-100) / 100 is zero. *)
Lemma singular_divisor :
  (lit 1 + lit (-100) / lit 100)%js = Fin 0%Qc.
Proof. vm_compute. reflexivity. Qed.

(** The tests [isNaN] and [isFinite] on exact numbers. *)

Lemma X_isNaN x : isNaN x = true <-> x = NaN.
Proof.
  unfold isNaN. destruct x as [q| | |]; simpl; try (split; congruence).
  assert (Hq : Qle_bool q q = true) by (apply Qle_bool_iff, Qle_refl).
  rewrite Hq. simpl. split; congruence.
Qed.

Lemma X_isNaN_false x : isNaN x = false <-> x <> NaN.
Proof.
  rewrite <- X_isNaN. destruct (isNaN x); split; congruence.
Qed.

Lemma X_isFinite x : isFinite x = X.finite x.
Proof.
  unfold isFinite. destruct x as [q| | |]; try reflexivity.
  change ((Fin q - Fin q <= lit 0)%js) with (Qle_bool (q - q)%Qc 0%Qc).
  replace (q - q)%Qc with 0%Qc by ring. reflexivity.
Qed.

(** What the proofs below use of the arithmetic, on exact numbers. *)

Lemma X_div_zero x : isFinite (x / lit 0)%js = false.
Proof. rewrite X_isFinite. apply div_zero_not_finite. Qed.

Lemma X_mul_not_finite a b :
  isFinite b = false -> isFinite (a * b)%js = false.
Proof. rewrite !X_isFinite. apply mul_not_finite_r. Qed.

Lemma X_sub_not_finite a b :
  isFinite b = false -> isFinite (a - b)%js = false.
Proof. rewrite !X_isFinite. apply sub_not_finite_r. Qed.

Lemma X_add_not_finite_l a b :
  isFinite a = false -> isFinite (a + b)%js = false.
Proof. rewrite !X_isFinite. apply add_not_finite_l. Qed.

Lemma X_add_not_finite_r a b :
  isFinite b = false -> isFinite (a + b)%js = false.
Proof. rewrite !X_isFinite. apply add_not_finite_r. Qed.

Lemma X_div_zero_pos x : (lit 0 < x)%js = true -> (x / lit 0)%js = Infinity.
Proof.
  destruct x as [q| | |]; try discriminate; [|reflexivity].
  intros Hq. apply X_lt_Fin in Hq.
  change ((Fin q / lit 0)%js) with (X.of_sign (X.sgn q)).
  apply sgn_Gt in Hq. rewrite Hq. reflexivity.
Qed.

Lemma X_div_zero_neg x :
  (x < lit 0)%js = true -> (x / lit 0)%js = minus_Infinity.
Proof.
  destruct x as [q| | |]; try discriminate; [|reflexivity].
  intros Hq. apply X_lt_Fin in Hq.
  change ((Fin q / lit 0)%js) with (X.of_sign (X.sgn q)).
  apply sgn_Lt in Hq. rewrite Hq. reflexivity.
Qed.

(* A finite amount of something worth 0 adds nothing to a sum that is 0,
   and differs by 0 from itself. *)
Lemma X_zero_sum a : isFinite a = true -> (lit 0 + a * lit 0)%js = lit 0.
Proof.
  rewrite X_isFinite. destruct a as [q| | |]; try discriminate. intros _.
  change ((lit 0 + Fin q * lit 0)%js) with (Fin (0 + q * 0)%Qc).
  replace (0 + q * 0)%Qc with 0%Qc by ring. reflexivity.
Qed.

Lemma X_zero_diff a :
  isFinite a = true -> (a * lit 0 - a * lit 0)%js = lit 0.
Proof.
  rewrite X_isFinite. destruct a as [q| | |]; try discriminate. intros _.
  change ((Fin q * lit 0 - Fin q * lit 0)%js) with (Fin (q * 0 - q * 0)%Qc).
  replace (q * 0 - q * 0)%Qc with 0%Qc by ring. reflexivity.
Qed.

End XnumFacts.
(** ** Rounding to two decimal places *)

Section Round2Facts.
Implicit Types (p q t : Qc) (x : xnum).

Lemma hundredths_spec q :
  (inject_Z (X.hundredths q) <= this q * 100 + (1 # 2))%Q
  /\ (this q * 100 + (1 # 2) < inject_Z (X.hundredths q) + 1)%Q.
Proof.
  unfold X.hundredths.
  assert (Heq : (this (q * Q2Qc 100 + Q2Qc (1 # 2))%Qc
                 == this q * 100 + (1 # 2))%Q).
  { rewrite this_add, this_mul, !this_Q2Qc. reflexivity. }
  rewrite Heq. split.
  - apply Qfloor_le.
  - pose proof (Qlt_floor (this q * 100 + (1 # 2))) as Hlt.
    rewrite inject_Z_plus in Hlt. exact Hlt.
Qed.

(* [round2] rounds half-up to hundredths. *)
Lemma round2_Fin q : round2 (Fin q) = Fin (Q2Qc (X.hundredths q # 100)).
Proof.
  unfold round2.
  change (Math_round (Fin q * lit 100)%js)
    with (Fin (Q2Qc (inject_Z (X.hundredths q)))).
  change ((Fin (Q2Qc (inject_Z (X.hundredths q))) / lit 100)%js)
    with (Fin (Q2Qc (inject_Z (X.hundredths q)) / Q2Qc 100)%Qc).
  f_equal. apply Qc_is_canon. rewrite this_div, !this_Q2Qc.
  rewrite (Qmake_Qdiv (X.hundredths q) 100). reflexivity.
Qed.

End Round2Facts.

(** ** The samples of one refresh *)

Section WalkFacts.
Implicit Types (p q t a b : Qc) (x d e : xnum).

Lemma within_Fin a b t :
  within (Fin a) (Fin b) (Fin t) = true
  <-> (this a - this b <= this t)%Q /\ (this b - this a <= this t)%Q.
Proof.
  unfold within.
  change ((Fin a - Fin b <= Fin t)%js) with (Qle_bool (a - b)%Qc t).
  change ((Fin b - Fin a <= Fin t)%js) with (Qle_bool (b - a)%Qc t).
  rewrite andb_true_iff, !Qle_bool_iff, !this_sub. reflexivity.
Qed.

(* Only a number can be within a finite distance of a number. *)
Lemma within_Fin_inv x b t :
  within x (Fin b) (Fin t) = true -> exists a, x = Fin a.
Proof.
  destruct x as [a| | |]; [eauto| | |]; discriminate.
Qed.

(* What [Math.random] returns: a number in [0, 1). *)
Lemma unit_interval_Fin x :
  X.le (lit 0) x = true -> X.lt x (lit 1) = true ->
  exists u, x = Fin u /\ (0 <= this u)%Q /\ (this u < 1)%Q.
Proof.
  destruct x as [u| | |]; try discriminate. intros Hle Hlt.
  exists u. split; [reflexivity|]. split.
  - apply X_le_Fin in Hle. exact Hle.
  - apply X_lt_Fin in Hlt. exact Hlt.
Qed.

Lemma within_range_inv x (c : Q) :
  within x (lit 0) (lit c) = true ->
  exists a, x = Fin a /\ (- c <= this a)%Q /\ (this a <= c)%Q.
Proof.
  intros Hx. destruct (within_Fin_inv _ _ _ Hx) as [a ->].
  exists a. split; [reflexivity|].
  apply within_Fin in Hx. rewrite !this_Q2Qc in Hx. lra.
Qed.

(* A draw in [0, 1) samples a drift in [-1.2, 1.2] and a delta in
   [-0.6, 0.6]. *)
Lemma sample_range (random : nat -> xnum) n :
  X.le (lit 0) (random n) = true -> X.lt (random n) (lit 1) = true ->
  within (sample random n (lit (-1.2)) (lit 1.2)) (lit 0) (lit 1.2) = true
  /\ within (sample random n (lit (-0.6)) (lit 0.6)) (lit 0) (lit 0.6) = true.
Proof.
  intros Hle Hlt. unfold sample.
  destruct (unit_interval_Fin _ Hle Hlt) as (u & -> & H0 & H1).
  split; apply within_Fin;
    rewrite ?this_sub, ?this_add, ?this_mul, ?this_sub, ?this_Q2Qc; lra.
Qed.

End WalkFacts.
(** ** Clamping on exact numbers *)

Section ClampFacts.
Implicit Types (x : xnum) (q : Qc).

Lemma clamp_Fin q :
  clamp (Fin q) (lit (-99)) (lit 999)
  = if Qle_bool q (Q2Qc (-99)) then lit (-99)
    else if Qle_bool (Q2Qc 999) q then lit 999 else Fin q.
Proof.
  unfold clamp. cbn [Math_max Math_min xnum_number lit X.max X.min X.lt].
  destruct (Qle_bool (Q2Qc 999) q) eqn:Hhi; cbn [negb].
  - destruct (Qle_bool q (Q2Qc (-99))) eqn:Hlo; [|reflexivity].
    apply Qle_bool_iff in Hhi, Hlo. exfalso.
    assert (Hc : (Q2Qc 999 <= Q2Qc (-99))%Q) by (eapply Qle_trans; eassumption).
    revert Hc. vm_compute. intros Hc. apply Hc. reflexivity.
  - destruct (Qle_bool q (Q2Qc (-99))) eqn:Hlo; reflexivity.
Qed.

Lemma clamp_PInf : clamp PInf (lit (-99)) (lit 999) = lit 999.
Proof. reflexivity. Qed.

Lemma clamp_NInf : clamp NInf (lit (-99)) (lit 999) = lit (-99).
Proof. reflexivity. Qed.

(* A number is clamped into [-99, 999]. *)
Lemma clamp_bounds x :
  x <> NaN ->
  X.le (lit (-99)) (clamp x (lit (-99)) (lit 999)) = true
  /\ X.le (clamp x (lit (-99)) (lit 999)) (lit 999) = true.
Proof.
  destruct x as [q| | |]; intros Hx; try (split; reflexivity);
    [|congruence].
  rewrite clamp_Fin.
  destruct (Qle_bool q (Q2Qc (-99))) eqn:Hlo; [split; reflexivity|].
  destruct (Qle_bool (Q2Qc 999) q) eqn:Hhi; [split; reflexivity|].
  split; apply Qle_bool_iff.
  - destruct (Qle_bool (Q2Qc (-99)) q) eqn:Hb;
      [apply Qle_bool_iff; exact Hb|].
    exfalso. assert (Hlt : (q < Q2Qc (-99))%Q).
    { apply Qnot_le_lt. intros Hle. apply Qle_bool_iff in Hle. congruence. }
    apply Qlt_le_weak, Qle_bool_iff in Hlt. congruence.
  - destruct (Qle_bool q (Q2Qc 999)) eqn:Hb;
      [apply Qle_bool_iff; exact Hb|].
    exfalso. assert (Hlt : (Q2Qc 999 < q)%Q).
    { apply Qnot_le_lt. intros Hle. apply Qle_bool_iff in Hle. congruence. }
    apply Qlt_le_weak, Qle_bool_iff in Hlt. congruence.
Qed.

(* Outside [-99, 999] the clamped number is another number. *)
Lemma clamp_moves x :
  X.lt x (lit (-99)) = true \/ X.lt (lit 999) x = true ->
  clamp x (lit (-99)) (lit 999) <> x.
Proof.
  destruct x as [q| | |].
  - rewrite clamp_Fin. intros [Hlt|Hlt].
    + apply X_lt_Fin in Hlt.
      assert (Hle : Qle_bool q (Q2Qc (-99)) = true).
      { apply Qle_bool_iff, Qlt_le_weak, Hlt. }
      rewrite Hle. intros Heq. injection Heq as Heq.
      rewrite <- Heq in Hlt. apply (Qlt_irrefl _ Hlt).
    + apply X_lt_Fin in Hlt.
      assert (Hle : Qle_bool (Q2Qc 999) q = true).
      { apply Qle_bool_iff, Qlt_le_weak, Hlt. }
      rewrite Hle.
      destruct (Qle_bool q (Q2Qc (-99))) eqn:Hlo.
      * apply Qle_bool_iff in Hlo. intros Heq. injection Heq as Heq.
        rewrite <- Heq in Hlt. revert Hlt. vm_compute. discriminate.
      * intros Heq. injection Heq as Heq.
        rewrite <- Heq in Hlt. apply (Qlt_irrefl _ Hlt).
  - intros _. rewrite clamp_PInf. discriminate.
  - intros _. rewrite clamp_NInf. discriminate.
  - intros [Hlt|Hlt]; discriminate Hlt.
Qed.

Lemma X_clamp_bounds x :
  isNaN x = false ->
  (lit (-99) <= clamp x (lit (-99)) (lit 999))%js = true
  /\ (clamp x (lit (-99)) (lit 999) <= lit 999)%js = true.
Proof. intros Hx. apply clamp_bounds, X_isNaN_false, Hx. Qed.

Lemma X_clamp_NaN x :
  isNaN x = true -> isNaN (clamp x (lit (-99)) (lit 999)) = true.
Proof. intros Hx. apply X_isNaN in Hx. subst x. reflexivity. Qed.

End ClampFacts.

(** ** Arithmetic on binary64 numbers *)

Section FloatFacts.
Implicit Types (x y a b : float).

Lemma SFcompare_refl (s : spec_float) :
  s <> S754_nan -> SFcompare s s = Some Eq.
Proof.
  destruct s as [z|i| |sg m e]; intros Hs; try congruence.
  - reflexivity.
  - destruct i; reflexivity.
  - simpl. rewrite Z.compare_refl, Pos.compare_cont_refl.
    destruct sg; reflexivity.
Qed.

Lemma F_isNaN x : isNaN x = true <-> Prim2SF x = S754_nan.
Proof.
  unfold isNaN. change (x <= x)%js with (PrimFloat.leb x x).
  rewrite leb_spec. unfold SFleb.
  destruct (Prim2SF x) as [z|i| |sg m e] eqn:Hx.
  - rewrite SFcompare_refl by discriminate. simpl. split; discriminate.
  - rewrite SFcompare_refl by discriminate. simpl. split; discriminate.
  - simpl. split; reflexivity.
  - rewrite SFcompare_refl by discriminate. simpl. split; discriminate.
Qed.

(* [isFinite] holds of the zeros and of the nonzero finite numbers, whose
   difference with themselves is +0, and of nothing else. *)
Lemma F_isFinite x : isFinite x = F.finite x.
Proof.
  unfold F.finite, isFinite.
  change (x - x <= lit 0)%js
    with (PrimFloat.leb (PrimFloat.sub x x) PrimFloat.zero).
  rewrite leb_spec, sub_spec. unfold SF64sub.
  destruct (Prim2SF x) as [z|i| |sg m e].
  - destruct z; reflexivity.
  - destruct i; reflexivity.
  - reflexivity.
  - unfold SFsub. rewrite Z.sub_diag. reflexivity.
Qed.

Lemma F_div_zero x : F.finite (PrimFloat.div x PrimFloat.zero) = false.
Proof.
  unfold F.finite. rewrite div_spec.
  change (Prim2SF PrimFloat.zero) with (S754_zero false).
  destruct (Prim2SF x) as [z|i| |sg m e]; reflexivity.
Qed.

Lemma F_mul_not_finite_r a b :
  F.finite b = false -> F.finite (PrimFloat.mul a b) = false.
Proof.
  unfold F.finite. rewrite mul_spec.
  destruct (Prim2SF b) as [zb|ib| |sb mb eb]; try discriminate; intros _;
    destruct (Prim2SF a) as [za|ia| |sa ma ea]; reflexivity.
Qed.

Lemma F_sub_not_finite_r a b :
  F.finite b = false -> F.finite (PrimFloat.sub a b) = false.
Proof.
  unfold F.finite. rewrite sub_spec.
  destruct (Prim2SF b) as [zb|ib| |sb mb eb]; try discriminate; intros _;
    destruct (Prim2SF a) as [za|ia| |sa ma ea]; try reflexivity.
  destruct ia, ib; reflexivity.
Qed.

Lemma F_add_not_finite_r a b :
  F.finite b = false -> F.finite (PrimFloat.add a b) = false.
Proof.
  unfold F.finite. rewrite add_spec.
  destruct (Prim2SF b) as [zb|ib| |sb mb eb]; try discriminate; intros _;
    destruct (Prim2SF a) as [za|ia| |sa ma ea]; try reflexivity.
  destruct ia, ib; reflexivity.
Qed.

Lemma F_add_not_finite_l a b :
  F.finite a = false -> F.finite (PrimFloat.add a b) = false.
Proof.
  unfold F.finite. rewrite add_spec.
  destruct (Prim2SF a) as [za|ia| |sa ma ea]; try discriminate; intros _;
    destruct (Prim2SF b) as [zb|ib| |sb mb eb]; try reflexivity.
  destruct ia, ib; reflexivity.
Qed.

(* A finite number times 0 is a zero, of either sign. *)
Lemma F_mul_zero a :
  F.finite a = true ->
  PrimFloat.mul a PrimFloat.zero = PrimFloat.zero
  \/ PrimFloat.mul a PrimFloat.zero = PrimFloat.neg_zero.
Proof.
  unfold F.finite. intros Ha.
  assert (Hs : Prim2SF (PrimFloat.mul a PrimFloat.zero) = S754_zero false
               \/ Prim2SF (PrimFloat.mul a PrimFloat.zero) = S754_zero true).
  { rewrite mul_spec. change (Prim2SF PrimFloat.zero) with (S754_zero false).
    destruct (Prim2SF a) as [za|ia| |sa ma ea]; try discriminate.
    - destruct za; auto.
    - destruct sa; auto. }
  destruct Hs as [Hs|Hs]; [left|right]; apply Prim2SF_inj; rewrite Hs;
    reflexivity.
Qed.

(** What the proofs below use of the arithmetic, on binary64. *)

Lemma F_div_zero' x : isFinite (x / lit 0)%js = false.
Proof. rewrite F_isFinite. apply F_div_zero. Qed.

Lemma F_mul_not_finite a b :
  isFinite b = false -> isFinite (a * b)%js = false.
Proof. rewrite !F_isFinite. apply F_mul_not_finite_r. Qed.

Lemma F_sub_not_finite a b :
  isFinite b = false -> isFinite (a - b)%js = false.
Proof. rewrite !F_isFinite. apply F_sub_not_finite_r. Qed.

Lemma F_add_not_finite_l' a b :
  isFinite a = false -> isFinite (a + b)%js = false.
Proof. rewrite !F_isFinite. apply F_add_not_finite_l. Qed.

Lemma F_add_not_finite_r' a b :
  isFinite b = false -> isFinite (a + b)%js = false.
Proof. rewrite !F_isFinite. apply F_add_not_finite_r. Qed.

Lemma F_div_zero_pos x : (lit 0 < x)%js = true -> (x / lit 0)%js = Infinity.
Proof.
  change ((lit 0 < x)%js) with (PrimFloat.ltb PrimFloat.zero x).
  change ((x / lit 0)%js) with (PrimFloat.div x PrimFloat.zero).
  rewrite ltb_spec. change (Prim2SF PrimFloat.zero) with (S754_zero false).
  intros Hx. apply Prim2SF_inj. rewrite div_spec.
  change (Prim2SF PrimFloat.zero) with (S754_zero false).
  destruct (Prim2SF x) as [z|i| |sg m e]; try discriminate.
  - destruct i; [discriminate | reflexivity].
  - destruct sg; [discriminate | reflexivity].
Qed.

Lemma F_div_zero_neg x :
  (x < lit 0)%js = true -> (x / lit 0)%js = minus_Infinity.
Proof.
  change ((x < lit 0)%js) with (PrimFloat.ltb x PrimFloat.zero).
  change ((x / lit 0)%js) with (PrimFloat.div x PrimFloat.zero).
  rewrite ltb_spec. change (Prim2SF PrimFloat.zero) with (S754_zero false).
  intros Hx. apply Prim2SF_inj. rewrite div_spec.
  change (Prim2SF PrimFloat.zero) with (S754_zero false).
  destruct (Prim2SF x) as [z|i| |sg m e]; try discriminate.
  - destruct i; [reflexivity | discriminate].
  - destruct sg; [reflexivity | discriminate].
Qed.

Lemma F_zero_sum a : isFinite a = true -> (lit 0 + a * lit 0)%js = lit 0.
Proof.
  rewrite F_isFinite. intros Ha.
  change ((lit 0 + a * lit 0)%js)
    with (PrimFloat.add PrimFloat.zero (PrimFloat.mul a PrimFloat.zero)).
  destruct (F_mul_zero a Ha) as [-> | ->]; reflexivity.
Qed.

Lemma F_zero_diff a :
  isFinite a = true -> (a * lit 0 - a * lit 0)%js = lit 0.
Proof.
  rewrite F_isFinite. intros Ha.
  change ((a * lit 0 - a * lit 0)%js)
    with (PrimFloat.sub (PrimFloat.mul a PrimFloat.zero)
            (PrimFloat.mul a PrimFloat.zero)).
  destruct (F_mul_zero a Ha) as [-> | ->]; reflexivity.
Qed.

End FloatFacts.

(** ** Clamping on binary64 numbers *)

Section FloatClamp.
Implicit Types (x y : float) (s : spec_float).

Lemma SFcompare_antisym s1 s2 c :
  SFcompare s1 s2 = Some c -> SFcompare s2 s1 = Some (CompOpp c).
Proof.
  destruct s1 as [z1|i1| |sg1 m1 e1], s2 as [z2|i2| |sg2 m2 e2]; simpl;
    try discriminate; intros Hc; injection Hc as <-;
    try reflexivity;
    try (destruct i1; reflexivity); try (destruct i2; reflexivity);
    try (destruct sg1; reflexivity); try (destruct sg2; reflexivity).
  - destruct i1, i2; reflexivity.
  - rewrite (Z.compare_antisym e1 e2).
    change (Pos.compare_cont Eq m2 m1) with (Pos.compare m2 m1).
    change (Pos.compare_cont Eq m1 m2) with (Pos.compare m1 m2).
    rewrite (Pos.compare_antisym m1 m2).
    destruct sg1, sg2; try reflexivity;
      destruct (e1 ?= e2)%Z; simpl; try reflexivity;
      rewrite ?CompOpp_involutive; reflexivity.
Qed.

Lemma SFcompare_Some s1 s2 :
  s1 <> S754_nan -> s2 <> S754_nan -> exists c, SFcompare s1 s2 = Some c.
Proof.
  destruct s1 as [z1|i1| |sg1 m1 e1], s2 as [z2|i2| |sg2 m2 e2]; simpl;
    intros H1 H2; try congruence; eauto.
Qed.

Lemma F_is_nan x : F.is_nan x = isNaN x.
Proof.
  unfold F.is_nan, isNaN. change (x <= x)%js with (PrimFloat.leb x x).
  rewrite FloatAxioms.eqb_spec, leb_spec. unfold SFeqb, SFleb.
  destruct (Prim2SF x) as [z|i| |sg m e] eqn:Hx;
    try (rewrite SFcompare_refl by discriminate; reflexivity).
  reflexivity.
Qed.

(* Of two numbers, neither [NaN]: the first is [<=] the second when the
   second is not [<] the first, and when it is itself [<] the second; and
   they are not each [<] the other. *)
Lemma F_not_ltb_leb x y :
  isNaN x = false -> isNaN y = false ->
  PrimFloat.ltb y x = false -> PrimFloat.leb x y = true.
Proof.
  intros Hx Hy. rewrite ltb_spec, leb_spec. unfold SFltb, SFleb.
  assert (Hsx : Prim2SF x <> S754_nan).
  { intros Hn. apply F_isNaN in Hn. congruence. }
  assert (Hsy : Prim2SF y <> S754_nan).
  { intros Hn. apply F_isNaN in Hn. congruence. }
  destruct (SFcompare_Some _ _ Hsy Hsx) as [c Hc].
  rewrite Hc, (SFcompare_antisym _ _ _ Hc).
  destruct c; simpl; congruence.
Qed.

Lemma F_ltb_leb x y : PrimFloat.ltb x y = true -> PrimFloat.leb x y = true.
Proof.
  rewrite ltb_spec, leb_spec. unfold SFltb, SFleb.
  destruct (SFcompare (Prim2SF x) (Prim2SF y)) as [[| |]|]; congruence.
Qed.

Lemma F_ltb_asym x y : PrimFloat.ltb x y = true -> PrimFloat.ltb y x = false.
Proof.
  rewrite !ltb_spec. unfold SFltb.
  destruct (SFcompare (Prim2SF x) (Prim2SF y)) as [c|] eqn:Hc;
    [|discriminate].
  rewrite (SFcompare_antisym _ _ _ Hc). destruct c; simpl; congruence.
Qed.

Lemma F_ltb_irrefl x : PrimFloat.ltb x x = false.
Proof.
  destruct (PrimFloat.ltb x x) eqn:Hx; [|reflexivity].
  pose proof (F_ltb_asym x x Hx). congruence.
Qed.

Lemma F_clamp_cases x :
  isNaN x = false ->
  clamp x (lit (-99)) (lit 999)
  = if PrimFloat.ltb (lit 999) x then lit 999
    else if PrimFloat.ltb (lit (-99)) x then x else lit (-99).
Proof.
  intros Hx. unfold clamp.
  change (Math_min (lit 999) x) with (F.min (lit 999) x).
  change (Math_max (lit (-99)) (F.min (lit 999) x))
    with (F.max (lit (-99)) (F.min (lit 999) x)).
  assert (Hmin : F.min (lit 999) x
                 = if PrimFloat.ltb (lit 999) x then lit 999 else x).
  { unfold F.min. rewrite (F_is_nan x), Hx.
    change (F.is_nan (lit 999)) with false. simpl orb.
    destruct (PrimFloat.ltb (lit 999) x); [reflexivity|].
    change (F.is_neg_zero (lit 999)) with false.
    destruct (PrimFloat.ltb x (lit 999)); reflexivity. }
  rewrite Hmin. destruct (PrimFloat.ltb (lit 999) x); [reflexivity|].
  unfold F.max. rewrite (F_is_nan x), Hx.
  change (F.is_nan (lit (-99))) with false. simpl orb.
  destruct (PrimFloat.ltb (lit (-99)) x); [reflexivity|].
  change (F.is_neg_zero (lit (-99))) with false.
  destruct (PrimFloat.ltb x (lit (-99))); reflexivity.
Qed.

Lemma F_clamp_NaN x :
  isNaN x = true -> isNaN (clamp x (lit (-99)) (lit 999)) = true.
Proof.
  intros Hx. unfold clamp.
  change (Math_min (lit 999) x) with (F.min (lit 999) x).
  change (Math_max (lit (-99)) (F.min (lit 999) x))
    with (F.max (lit (-99)) (F.min (lit 999) x)).
  unfold F.min. rewrite (F_is_nan x), Hx.
  change (F.is_nan (lit 999)) with false. simpl orb. cbv iota.
  reflexivity.
Qed.

Lemma F_clamp_bounds x :
  isNaN x = false ->
  (lit (-99) <= clamp x (lit (-99)) (lit 999))%js = true
  /\ (clamp x (lit (-99)) (lit 999) <= lit 999)%js = true.
Proof.
  intros Hx. rewrite (F_clamp_cases x Hx).
  destruct (PrimFloat.ltb (lit 999) x) eqn:Hhi; [split; reflexivity|].
  destruct (PrimFloat.ltb (lit (-99)) x) eqn:Hlo; [|split; reflexivity].
  split.
  - apply F_ltb_leb, Hlo.
  - apply F_not_ltb_leb; [exact Hx | reflexivity | exact Hhi].
Qed.

Lemma F_clamp_moves x :
  (x < lit (-99))%js = true \/ (lit 999 < x)%js = true ->
  clamp x (lit (-99)) (lit 999) <> x.
Proof.
  intros Hout.
  assert (Hx : isNaN x = false).
  { destruct (isNaN x) eqn:Hn; [|reflexivity]. exfalso.
    apply F_isNaN in Hn.
    change ((x < lit (-99))%js) with (PrimFloat.ltb x (lit (-99))) in Hout.
    change ((lit 999 < x)%js) with (PrimFloat.ltb (lit 999) x) in Hout.
    rewrite !ltb_spec, Hn in Hout. unfold SFltb in Hout.
    destruct Hout as [Hc|Hc]; simpl in Hc; [discriminate|].
    destruct (Prim2SF (lit 999)); discriminate. }
  rewrite (F_clamp_cases x Hx).
  change ((x < lit (-99))%js) with (PrimFloat.ltb x (lit (-99))) in Hout.
  change ((lit 999 < x)%js) with (PrimFloat.ltb (lit 999) x) in Hout.
  destruct (PrimFloat.ltb (lit 999) x) eqn:Hhi.
  - intros Heq. rewrite <- Heq in Hhi. rewrite F_ltb_irrefl in Hhi.
    discriminate.
  - destruct Hout as [Hlt|Hlt]; [|discriminate].
    rewrite (F_ltb_asym _ _ Hlt).
    intros Heq. rewrite <- Heq in Hlt. rewrite F_ltb_irrefl in Hlt.
    discriminate.
Qed.

End FloatClamp.
(** ** The price service *)

Section PricesMockFacts.
Context {num : Type} `{JSNumber num}.
Variable random : nat -> num.
Implicit Types (w : Store num) (st next acc : PriceMap num).

(* One turn of the loop on a key the state has. *)
Lemma walk_run st sym p acc n :
  obj_get st sym = Some p ->
  walk random st sym acc {| state := st; drawn := n |}
  = (Returned (obj_set acc sym
       (advanced sym p (sample random n (lit (-1.2)) (lit 1.2))
                       (sample random (S n) (lit (-0.6)) (lit 0.6)))),
     {| state := st; drawn := S (S n) |}).
Proof. intros Hget. unfold walk. rewrite Hget. reflexivity. Qed.

Lemma advance_from_keys n es :
  Object_keys (advance_from random n es) = Object_keys es.
Proof.
  revert n. unfold Object_keys.
  induction es as [|[k p] es IH]; intros n; csimpl; [reflexivity|].
  rewrite IH. reflexivity.
Qed.

Lemma advance_from_lookup n es i k p :
  es !! i = Some (k, p) ->
  advance_from random n es !! i
  = Some (k, advanced k p (driftPct_at random n i) (delta_at random n i)).
Proof.
  revert n i. induction es as [|[k0 p0] es IH]; intros n i Hi.
  - rewrite lookup_nil in Hi. discriminate.
  - destruct i as [|i]; simpl in *.
    + injection Hi as -> ->. unfold driftPct_at, delta_at.
      replace (n + 2 * 0)%nat with n by lia.
      replace (n + 1)%nat with (S n) by lia. reflexivity.
    + rewrite (IH (S (S n)) i Hi). unfold driftPct_at, delta_at.
      replace (S (S n) + 2 * i)%nat with (n + 2 * S i)%nat by lia.
      reflexivity.
Qed.

(* The loop, on keys of the state that are not yet in [acc]. *)
Lemma for_of_walk_run st es acc n :
  (forall k p, (k, p) ∈ es -> obj_get st k = Some p) ->
  NoDup (Object_keys (acc ++ es)) ->
  for_of (Object_keys es) (walk random st) acc {| state := st; drawn := n |}
  = (Returned (acc ++ advance_from random n es),
     {| state := st; drawn := (n + 2 * length es)%nat |}).
Proof.
  revert acc n. induction es as [|[k p] es IH]; intros acc n Hget Hnd.
  - simpl. rewrite app_nil_r. unfold ret. do 3 f_equal. lia.
  - unfold Object_keys. csimpl. fold (Object_keys es). unfold bind.
    rewrite (walk_run st k p acc n) by (apply Hget; left).
    assert (Hk : k ∉ Object_keys acc).
    { unfold Object_keys in *. rewrite fmap_app in Hnd. csimpl in Hnd.
      apply NoDup_app in Hnd as (_ & Hdisj & _).
      intros Hin. apply (Hdisj k Hin). left. }
    rewrite (obj_set_fresh _ _ _ Hk). rewrite IH.
    + rewrite <- app_assoc. simpl. do 3 f_equal. lia.
    + intros k' p' Hin. apply Hget. right. exact Hin.
    + unfold Object_keys in *. rewrite <- app_assoc.
      rewrite !fmap_app in *. csimpl in *. exact Hnd.
Qed.

(* A refresh of a well-formed state: every symbol advanced by its own two
   samples, in the order of the keys, and the result installed. *)
Lemma refreshMockPrices_run w :
  wf_obj (state w) ->
  refreshMockPrices random w
  = (Returned (advance_from random (drawn w) (state w)),
     {| state := advance_from random (drawn w) (state w);
        drawn := (drawn w + 2 * length (state w))%nat |}).
Proof.
  intros Hwf. destruct w as [st n]. simpl in *.
  unfold refreshMockPrices, bind, get_state, put_state, ret. simpl.
  rewrite (for_of_walk_run st st [] n).
  - simpl. rewrite spread_wf; [reflexivity|].
    unfold wf_obj. rewrite advance_from_keys. exact Hwf.
  - intros k p Hin. apply obj_get_elem_of; assumption.
  - exact Hwf.
Qed.

(* The loop on any keys of the state, well-formed or not: it ends without
   throwing, and adds just these keys. *)
Lemma for_of_walk_keys st ks acc n :
  (forall k, k ∈ ks -> k ∈ Object_keys st) ->
  exists next,
    for_of ks (walk random st) acc {| state := st; drawn := n |}
    = (Returned next, {| state := st; drawn := (n + 2 * length ks)%nat |})
    /\ keyset next = keyset acc ∪ list_to_set ks.
Proof.
  revert acc n. induction ks as [|k ks IH]; intros acc n Hin.
  - exists acc. split.
    + simpl. unfold ret. do 2 f_equal. lia.
    + set_solver.
  - destruct (obj_get_is_Some st k (Hin k ltac:(left))) as [p Hp].
    destruct (IH (obj_set acc k
                (advanced k p (sample random n (lit (-1.2)) (lit 1.2))
                   (sample random (S n) (lit (-0.6)) (lit 0.6))))
                (S (S n))) as (next & Hrun & Hkeys).
    { intros k' Hk'. apply Hin. right. exact Hk'. }
    exists next. split.
    + simpl. unfold bind. rewrite (walk_run st k p acc n Hp).
      rewrite Hrun. do 2 f_equal. lia.
    + rewrite Hkeys, keyset_obj_set. set_solver.
Qed.

(* A refresh never throws, installs what it returns, and neither adds nor
   drops a key. *)
Lemma refreshMockPrices_total w :
  exists next,
    refreshMockPrices random w
    = (Returned (spread next),
       {| state := next; drawn := (drawn w + 2 * length (state w))%nat |})
    /\ keyset next = keyset (state w).
Proof.
  destruct w as [st n].
  destruct (for_of_walk_keys st (Object_keys st) [] n) as (next & Hrun & Hk).
  { auto. }
  exists next. split.
  - unfold refreshMockPrices, bind, get_state, put_state, ret. simpl.
    rewrite Hrun. simpl. unfold Object_keys. rewrite length_fmap.
    reflexivity.
  - rewrite Hk. unfold keyset. set_solver.
Qed.

Lemma getMockPrices_run w :
  getMockPrices w = (Returned (spread (state w)), w).
Proof. reflexivity. Qed.

Lemma reachable_keys w :
  reachable random w -> Object_keys (state w) = ["BTC"; "ETH"; "SOL"; "XRP"].
Proof.
  induction 1 as [|w Hw IH|w Hw IH].
  - reflexivity.
  - rewrite getMockPrices_run. exact IH.
  - rewrite refreshMockPrices_run.
    + simpl. rewrite advance_from_keys. exact IH.
    + unfold wf_obj. rewrite IH. repeat constructor; set_solver.
Qed.

Lemma reachable_wf w : reachable random w -> wf_obj (state w).
Proof.
  intros Hw. unfold wf_obj. rewrite (reachable_keys w Hw).
  repeat constructor; set_solver.
Qed.

Lemma reachable_refreshed n w :
  reachable random w -> reachable random (refreshed random n w).
Proof.
  intros Hw. induction n as [|n IH]; simpl; [exact Hw|].
  apply reach_refresh, IH.
Qed.

End PricesMockFacts.
(** ** The derived rows and aggregates *)

Section DerivationFacts.
Context {num : Type} `{JSNumber num}.
Implicit Types (m : PriceMap num) (h : Holding.t num) (r : Row.t num).

Local Open Scope js_scope.

Lemma rows_length (hs : list (Holding.t num)) m :
  length (rows hs m) = length hs.
Proof. unfold rows. apply length_map. Qed.

(* A left fold that adds a term per row is the left-to-right sum, from 0,
   of the terms. *)
Lemma fold_left_add_map (f : Row.t num -> num) (rs : list (Row.t num)) z :
  fold_left (fun sum r => sum + f r) rs z = fold_left num_add (map f rs) z.
Proof.
  revert z. induction rs as [|r rs IH]; intros z; simpl; [reflexivity|].
  apply IH.
Qed.

End DerivationFacts.
(** ** The refresh handler *)

Section RefreshFacts.
Context {num : Type} `{JSNumber num}.
Variable service : M (Store num) (PriceMap num).
Implicit Types (pg : Page num) (a : App (num:=num)).

(* Up to its [await] the handler has only raised the busy flag. *)
Lemma handleRefreshPrices_run pg :
  run handleRefreshPrices pg
  = (Suspended afterAwait,
     {| currency := currency pg; prices := prices pg;
        loadingPrices := true |}).
Proof. reflexivity. Qed.

(* After it, the flag is down whatever the promise settled with; the prices
   are replaced when it was fulfilled, kept when it was rejected. *)
Lemma afterAwait_run (r : outcome (PriceMap num)) pg :
  run (afterAwait r) pg
  = (Finished match r with
              | Returned _ => Returned tt
              | Thrown e => Thrown e
              end,
     {| currency := currency pg;
        prices := match r with
                  | Returned next => next
                  | Thrown _ => prices pg
                  end;
        loadingPrices := false |}).
Proof. destruct r; reflexivity. Qed.

Lemma mount_one_in_flight (st : Store num) : one_in_flight (mount st).
Proof. left. split; reflexivity. Qed.

(* A call of the handler, whatever the page is in. *)
Lemma invoke_run a :
  invoke a
  = {| page := {| currency := currency (page a); prices := prices (page a);
                  loadingPrices := true |};
       view := view a; store := store a;
       pending := pending a ++ [afterAwait] |}.
Proof. unfold invoke. rewrite handleRefreshPrices_run. reflexivity. Qed.

(* The oldest call goes on when its promise settles. *)
Lemma settle_run a rest :
  pending a = afterAwait :: rest ->
  settle service a
  = {| page :=
         {| currency := currency (page a);
            prices := match (service (store a)).1 with
                      | Returned next => next
                      | Thrown _ => prices (page a)
                      end;
            loadingPrices := false |};
       view := view a; store := (service (store a)).2; pending := rest |}.
Proof.
  intros Hp. unfold settle. rewrite Hp.
  destruct (service (store a)) as [r st]. rewrite afterAwait_run.
  reflexivity.
Qed.

(* Every call in flight waits at the same [await]. *)
Lemma step_pending a e :
  Forall (eq afterAwait) (pending a) ->
  Forall (eq afterAwait) (pending (step service a e)).
Proof.
  intros Ha. destruct e; simpl.
  - unfold click. destruct (panelActionDisabled (view a)); [exact Ha|].
    rewrite invoke_run. simpl. apply Forall_app. split; [exact Ha|].
    constructor; [reflexivity | constructor].
  - destruct (pending a) as [|k rest] eqn:Hp.
    + unfold settle. rewrite Hp. rewrite Hp. constructor.
    + apply Forall_cons in Ha as [<- Hrest].
      rewrite (settle_run a rest Hp). exact Hrest.
  - exact Ha.
Qed.

(* With the component rendered again after each event, the buttons show
   the busy flag and at most one call is in flight. *)
Lemma rendered_step_one_in_flight a e :
  view a = page a /\ one_in_flight a ->
  view (render (step service a e)) = page (render (step service a e))
  /\ one_in_flight (render (step service a e)).
Proof.
  intros [Hv Ha]. split; [reflexivity|].
  unfold one_in_flight. cbn [render page pending].
  destruct Ha as [[Hl Hp]|[Hl Hp]]; destruct e; simpl.
  - right. unfold click, panelActionDisabled. rewrite Hv, Hl.
    rewrite invoke_run. simpl. rewrite Hp. auto.
  - left. unfold settle. rewrite Hp. auto.
  - left. auto.
  - right. unfold click, panelActionDisabled. rewrite Hv, Hl. auto.
  - left. rewrite (settle_run a [] Hp). auto.
  - right. auto.
Qed.

Lemma each_rendered_one_in_flight a es :
  view a = page a /\ one_in_flight a ->
  view (steps service a (each_rendered es))
  = page (steps service a (each_rendered es))
  /\ one_in_flight (steps service a (each_rendered es)).
Proof.
  revert a. induction es as [|e es IH]; intros a Ha; [exact Ha|].
  apply (IH (render (step service a e))), rendered_step_one_in_flight, Ha.
Qed.

End RefreshFacts.
(** ** The hooks of the component *)

Section HooksFacts.
Context {num : Type} `{JSNumber num} `{SameValue num}.
Implicit Types (w : World (num:=num)) (h : Hooks (num:=num)).

Lemma Object_is_eq (x y : dep (num:=num)) : Object_is x y = true -> x = y.
Proof.
  destruct x as [a|u], y as [b|v]; simpl; try discriminate.
  - intros Hab. apply Nat.eqb_eq in Hab. congruence.
  - intros Huv. apply same_value_eq in Huv. congruence.
Qed.

(* Dependencies that [areHookInputsEqual] takes for those of the render
   before, and are as many, are those. *)
Lemma areHookInputsEqual_eq (nextDeps prevDeps : list (dep (num:=num))) :
  length nextDeps = length prevDeps ->
  areHookInputsEqual nextDeps prevDeps = true -> nextDeps = prevDeps.
Proof.
  revert prevDeps.
  induction nextDeps as [|x xs IH]; intros [|y ys]; simpl;
    try discriminate; [reflexivity|].
  intros Hlen Heq. apply andb_true_iff in Heq as [Hxy Hrest].
  apply Object_is_eq in Hxy. rewrite (IH ys); congruence.
Qed.

(* The two ways of a [useMemo]: the value of the render before, with the
   world as it was, or a value computed now and kept. *)
Lemma useMemo_run {A} (cell : Hooks -> option (Memo A)) set_cell
    (nextCreate : M World A) deps w v w' :
  nextCreate w = (Returned v, w') ->
  (exists prev,
      cell (hooks w) = Some prev
      /\ areHookInputsEqual deps (memo_deps prev) = true
      /\ useMemo cell set_cell nextCreate deps w
         = (Returned (memoized prev), w))
  \/ useMemo cell set_cell nextCreate deps w
     = (Returned v,
        {| hooks :=
             set_cell (Some {| memoized := v; memo_deps := deps |})
               (hooks w');
           service_store := service_store w' |}).
Proof.
  intros Hcreate. unfold useMemo, bind, get_hooks, put_hooks, ret.
  destruct (cell (hooks w)) as [prev|] eqn:Hcell.
  - destruct (areHookInputsEqual deps (memo_deps prev)) eqn:Heq.
    + left. exists prev. auto.
    + right. rewrite Hcreate. reflexivity.
  - right. rewrite Hcreate. reflexivity.
Qed.

Lemma new_array_run {A} (v : A) w :
  new_array v w
  = (Returned {| address := fresh (hooks w); target := v |},
     {| hooks :=
          {| fresh := S (fresh (hooks w));
             state_cells := state_cells (hooks w);
             prices_ref := prices_ref (hooks w);
             holdings_cell := holdings_cell (hooks w);
             rows_cell := rows_cell (hooks w);
             totalBalance_cell := totalBalance_cell (hooks w);
             dayChangeAmount_cell := dayChangeAmount_cell (hooks w);
             dayChangePct_cell := dayChangePct_cell (hooks w) |};
        service_store := service_store w |}).
Proof. reflexivity. Qed.

(* The invariant goes over to cells that differ in what it does not
   read. *)
Lemma cells_fit_ext h h' :
  cells_fit h ->
  (fresh h <= fresh h')%nat ->
  prices (state_cells h') = prices (state_cells h) ->
  prices_ref h' = prices_ref h ->
  (forall c, holdings_cell h' = Some c -> target (memoized c) = holdings) ->
  rows_cell h' = rows_cell h ->
  totalBalance_cell h' = totalBalance_cell h ->
  dayChangeAmount_cell h' = dayChangeAmount_cell h ->
  dayChangePct_cell h' = dayChangePct_cell h ->
  cells_fit h'.
Proof.
  intros (H1 & _ & H3 & H4 & H5 & H6) Hf Hp Hr Hh Hrc Ht Ha Hd.
  unfold cells_fit, number_cell_fits. rewrite Hp, Hr, Hrc, Ht, Ha, Hd.
  refine (conj _ (conj Hh (conj _ (conj _ (conj _ _))))).
  - lia.
  - intros c Hc. destruct (H3 c Hc) as (Hlt & ha & pa & Hdeps & Hpa & Hm).
    split; [lia|]. exists ha, pa. refine (conj Hdeps (conj _ Hm)). lia.
  - intros c Hc. destruct (H4 c Hc) as (ra & Hdeps & Hra & Hm).
    exists ra. refine (conj Hdeps (conj _ Hm)). lia.
  - intros c Hc. destruct (H5 c Hc) as (ra & Hdeps & Hra & Hm).
    exists ra. refine (conj Hdeps (conj _ Hm)). lia.
  - intros c Hc. destruct (H6 c Hc) as (ra & t & Hdeps & Hra & Hm).
    exists ra, t. refine (conj Hdeps (conj _ Hm)). lia.
Qed.

(* A new object in [prices], or new rows: no cell names the new address. *)
Lemma cells_fit_new_prices h h' :
  cells_fit h ->
  fresh h' = S (fresh h) ->
  prices_ref h' = fresh h ->
  holdings_cell h' = holdings_cell h ->
  rows_cell h' = rows_cell h ->
  totalBalance_cell h' = totalBalance_cell h ->
  dayChangeAmount_cell h' = dayChangeAmount_cell h ->
  dayChangePct_cell h' = dayChangePct_cell h ->
  cells_fit h'.
Proof.
  intros (H1 & H2 & H3 & H4 & H5 & H6) Hf Hr Hh Hrc Ht Ha Hd.
  unfold cells_fit, number_cell_fits. rewrite Hf, Hr, Hh, Hrc, Ht, Ha, Hd.
  refine (conj _ (conj H2 (conj _ (conj _ (conj _ _))))).
  - lia.
  - intros c Hc. destruct (H3 c Hc) as (Hlt & ha & pa & Hdeps & Hpa & Hm).
    split; [lia|]. exists ha, pa. refine (conj Hdeps (conj _ _)); lia.
  - intros c Hc. destruct (H4 c Hc) as (ra & Hdeps & Hra & Hm).
    exists ra. refine (conj Hdeps (conj _ Hm)). lia.
  - intros c Hc. destruct (H5 c Hc) as (ra & Hdeps & Hra & Hm).
    exists ra. refine (conj Hdeps (conj _ Hm)). lia.
  - intros c Hc. destruct (H6 c Hc) as (ra & t & Hdeps & Hra & Hm).
    exists ra, t. refine (conj Hdeps (conj _ Hm)). lia.
Qed.

Lemma cells_fit_new_rows h h' ha :
  cells_fit h ->
  fresh h' = S (fresh h) ->
  state_cells h' = state_cells h ->
  prices_ref h' = prices_ref h ->
  holdings_cell h' = holdings_cell h ->
  rows_cell h'
  = Some {| memoized :=
              {| address := fresh h;
                 target := rows holdings (prices (state_cells h)) |};
            memo_deps := [DObj ha; DObj (prices_ref h)] |} ->
  totalBalance_cell h' = totalBalance_cell h ->
  dayChangeAmount_cell h' = dayChangeAmount_cell h ->
  dayChangePct_cell h' = dayChangePct_cell h ->
  cells_fit h'.
Proof.
  intros (H1 & H2 & H3 & H4 & H5 & H6) Hf Hs Hr Hh Hrc Ht Ha Hd.
  unfold cells_fit, number_cell_fits.
  rewrite Hf, Hs, Hr, Hh, Hrc, Ht, Ha, Hd.
  refine (conj _ (conj H2 (conj _ (conj _ (conj _ _))))).
  - lia.
  - intros c Hc. injection Hc as <-. simpl. split; [lia|].
    exists ha, (prices_ref h).
    refine (conj eq_refl (conj _ _)); [lia | reflexivity].
  - intros c Hc. destruct (H4 c Hc) as (ra & Hdeps & Hra & Hm).
    exists ra. refine (conj Hdeps (conj _ _)); [lia|].
    intros rc Hrc' Hadr. injection Hrc' as <-. simpl in Hadr. lia.
  - intros c Hc. destruct (H5 c Hc) as (ra & Hdeps & Hra & Hm).
    exists ra. refine (conj Hdeps (conj _ _)); [lia|].
    intros rc Hrc' Hadr. injection Hrc' as <-. simpl in Hadr. lia.
  - intros c Hc. destruct (H6 c Hc) as (ra & t & Hdeps & Hra & Hm).
    exists ra, t. refine (conj Hdeps (conj _ _)); [lia|].
    intros rc Hrc' Hadr. injection Hrc' as <-. simpl in Hadr. lia.
Qed.

(* The hook of [holdings]. *)
Lemma holdings_hook w :
  cells_fit (hooks w) ->
  exists hv w1,
    useMemo holdings_cell set_holdings_cell (new_array holdings) [] w
    = (Returned hv, w1)
    /\ target hv = holdings
    /\ cells_fit (hooks w1)
    /\ same_frame w w1.
Proof.
  intros Hfit.
  destruct (useMemo_run holdings_cell set_holdings_cell
              (new_array holdings) [] w _ _ (new_array_run holdings w))
    as [(prev & Hcell & _ & Hrun)|Hrun].
  - exists (memoized prev), w. refine (conj Hrun (conj _ (conj Hfit _))).
    + destruct Hfit as (_ & H2 & _). apply (H2 prev Hcell).
    + repeat split.
  - eexists _, _. refine (conj Hrun (conj eq_refl (conj _ _))).
    + apply (cells_fit_ext (hooks w)); simpl; auto.
      intros c Hc. injection Hc as <-. reflexivity.
    + repeat split.
Qed.

(* The hook of [rows], after the hook of [holdings]. *)
Lemma rows_hook w (hv : Ref (list (Holding.t num))) :
  cells_fit (hooks w) ->
  target hv = holdings ->
  exists rv w1 c,
    useMemo rows_cell set_rows_cell
      (new_array
         (rows (target hv) (prices (state_cells (hooks w)))))
      [DObj (address hv); DObj (prices_ref (hooks w))] w
    = (Returned rv, w1)
    /\ target rv = rows holdings (prices (state_cells (hooks w)))
    /\ rows_cell (hooks w1) = Some c
    /\ memoized c = rv
    /\ cells_fit (hooks w1)
    /\ same_frame w w1.
Proof.
  intros Hfit Hhv. rewrite Hhv.
  destruct (useMemo_run rows_cell set_rows_cell
              (new_array (rows holdings (prices (state_cells (hooks w)))))
              [DObj (address hv); DObj (prices_ref (hooks w))] w _ _
              (new_array_run _ w))
    as [(prev & Hcell & Heq & Hrun)|Hrun].
  - exists (memoized prev), w, prev.
    refine (conj Hrun (conj _ (conj Hcell (conj eq_refl (conj Hfit _))))).
    + destruct Hfit as (_ & _ & H3 & _).
      destruct (H3 prev Hcell) as (_ & ha & pa & Hdeps & _ & Hm).
      rewrite Hdeps in Heq. apply areHookInputsEqual_eq in Heq; [|reflexivity].
      apply Hm. congruence.
    + repeat split.
  - eexists _, _, _.
    refine (conj Hrun (conj eq_refl (conj eq_refl (conj eq_refl
              (conj _ _))))).
    + apply (cells_fit_new_rows (hooks w) _ (address hv) Hfit);
        reflexivity.
    + repeat split.
Qed.

(* The hooks of [totalBalance] and of [dayChangeAmount], after the hook of
   [rows]. *)
Lemma totalBalance_hook w c :
  cells_fit (hooks w) ->
  rows_cell (hooks w) = Some c ->
  exists w1,
    useMemo totalBalance_cell set_totalBalance_cell
      (ret (totalBalance (target (memoized c))))
      [DObj (address (memoized c))] w
    = (Returned (totalBalance (target (memoized c))), w1)
    /\ rows_cell (hooks w1) = Some c
    /\ cells_fit (hooks w1)
    /\ same_frame w w1.
Proof.
  intros Hfit Hc.
  destruct (useMemo_run totalBalance_cell set_totalBalance_cell
              (ret (totalBalance (target (memoized c))))
              [DObj (address (memoized c))] w _ _ eq_refl)
    as [(prev & Hcell & Heq & Hrun)|Hrun].
  - exists w. rewrite Hrun.
    refine (conj _ (conj Hc (conj Hfit _))); [|repeat split].
    destruct Hfit as (_ & _ & _ & H4 & _).
    destruct (H4 prev Hcell) as (ra & Hdeps & _ & Hm).
    rewrite Hdeps in Heq. apply areHookInputsEqual_eq in Heq; [|reflexivity].
    rewrite (Hm c Hc); [reflexivity|]. congruence.
  - eexists. refine (conj Hrun (conj Hc (conj _ _))); [|repeat split].
    destruct Hfit as (H1 & H2 & H3 & H4 & H5 & H6).
    unfold cells_fit, number_cell_fits. simpl.
    refine (conj H1 (conj H2 (conj H3 (conj _ (conj H5 H6))))).
    intros c' Hc'. injection Hc' as <-. simpl.
    exists (address (memoized c)).
    refine (conj eq_refl (conj _ _)).
    + apply (H3 c Hc).
    + intros rc Hrc _. congruence.
Qed.

Lemma dayChangeAmount_hook w c :
  cells_fit (hooks w) ->
  rows_cell (hooks w) = Some c ->
  exists w1,
    useMemo dayChangeAmount_cell set_dayChangeAmount_cell
      (ret (dayChangeAmount (target (memoized c))))
      [DObj (address (memoized c))] w
    = (Returned (dayChangeAmount (target (memoized c))), w1)
    /\ rows_cell (hooks w1) = Some c
    /\ cells_fit (hooks w1)
    /\ same_frame w w1.
Proof.
  intros Hfit Hc.
  destruct (useMemo_run dayChangeAmount_cell set_dayChangeAmount_cell
              (ret (dayChangeAmount (target (memoized c))))
              [DObj (address (memoized c))] w _ _ eq_refl)
    as [(prev & Hcell & Heq & Hrun)|Hrun].
  - exists w. rewrite Hrun.
    refine (conj _ (conj Hc (conj Hfit _))); [|repeat split].
    destruct Hfit as (_ & _ & _ & _ & H5 & _).
    destruct (H5 prev Hcell) as (ra & Hdeps & _ & Hm).
    rewrite Hdeps in Heq. apply areHookInputsEqual_eq in Heq; [|reflexivity].
    rewrite (Hm c Hc); [reflexivity|]. congruence.
  - eexists. refine (conj Hrun (conj Hc (conj _ _))); [|repeat split].
    destruct Hfit as (H1 & H2 & H3 & H4 & H5 & H6).
    unfold cells_fit, number_cell_fits. simpl.
    refine (conj H1 (conj H2 (conj H3 (conj H4 (conj _ H6))))).
    intros c' Hc'. injection Hc' as <-. simpl.
    exists (address (memoized c)).
    refine (conj eq_refl (conj _ _)).
    + apply (H3 c Hc).
    + intros rc Hrc _. congruence.
Qed.

(* The hook of [dayChangePct], after those of [rows] and [totalBalance]. *)
Lemma dayChangePct_hook w c (t : num) :
  cells_fit (hooks w) ->
  rows_cell (hooks w) = Some c ->
  exists w1,
    useMemo dayChangePct_cell set_dayChangePct_cell
      (ret (dayChangePct (target (memoized c)) t))
      [DObj (address (memoized c)); DNum t] w
    = (Returned (dayChangePct (target (memoized c)) t), w1)
    /\ cells_fit (hooks w1)
    /\ same_frame w w1.
Proof.
  intros Hfit Hc.
  destruct (useMemo_run dayChangePct_cell set_dayChangePct_cell
              (ret (dayChangePct (target (memoized c)) t))
              [DObj (address (memoized c)); DNum t] w _ _ eq_refl)
    as [(prev & Hcell & Heq & Hrun)|Hrun].
  - exists w. rewrite Hrun.
    refine (conj _ (conj Hfit _)); [|repeat split].
    destruct Hfit as (_ & _ & _ & _ & _ & H6).
    destruct (H6 prev Hcell) as (ra & t' & Hdeps & _ & Hm).
    rewrite Hdeps in Heq. apply areHookInputsEqual_eq in Heq; [|reflexivity].
    injection Heq as Hra Ht.
    rewrite (Hm c Hc); [|congruence]. rewrite Ht. reflexivity.
  - eexists. refine (conj Hrun (conj _ _)); [|repeat split].
    destruct Hfit as (H1 & H2 & H3 & H4 & H5 & H6).
    unfold cells_fit, number_cell_fits. simpl.
    refine (conj H1 (conj H2 (conj H3 (conj H4 (conj H5 _))))).
    intros c' Hc'. injection Hc' as <-. simpl.
    exists (address (memoized c)), t.
    refine (conj eq_refl (conj _ _)).
    + apply (H3 c Hc).
    + intros rc Hrc _. congruence.
Qed.

(* A render, on cells that fit: it returns what the derivations make of the
   prices the state holds now, keeps the cells fitting, and leaves the
   states and the store of the service alone. *)
Lemma DashboardPage_run w :
  cells_fit (hooks w) ->
  exists w1,
    DashboardPage w
    = (Returned (derived_from (prices (state_cells (hooks w)))), w1)
    /\ cells_fit (hooks w1)
    /\ same_frame w w1.
Proof.
  intros Hfit.
  destruct (holdings_hook w Hfit) as (hv & w1 & Hrun1 & Hhv & Hfit1 & Hfr1).
  destruct (rows_hook w1 hv Hfit1 Hhv)
    as (rv & w2 & c & Hrun2 & Hrv & Hc & Hcv & Hfit2 & Hfr2).
  destruct (totalBalance_hook w2 c Hfit2 Hc)
    as (w3 & Hrun3 & Hc3 & Hfit3 & Hfr3).
  destruct (dayChangeAmount_hook w3 c Hfit3 Hc3)
    as (w4 & Hrun4 & Hc4 & Hfit4 & Hfr4).
  destruct (dayChangePct_hook w4 c (totalBalance (target (memoized c)))
              Hfit4 Hc4) as (w5 & Hrun5 & Hfit5 & Hfr5).
  destruct Hfr1 as (Hs1 & Hp1 & Hv1), Hfr2 as (Hs2 & Hp2 & Hv2),
    Hfr3 as (Hs3 & Hp3 & Hv3), Hfr4 as (Hs4 & Hp4 & Hv4),
    Hfr5 as (Hs5 & Hp5 & Hv5).
  exists w5. refine (conj _ (conj Hfit5 _)).
  - unfold DashboardPage, bind at 1, get_hooks. cbv beta iota zeta.
    unfold bind at 1. rewrite Hrun1. cbv beta iota. cbn [address target].
    rewrite <- Hs1, <- Hp1.
    unfold bind at 1. rewrite Hrun2. cbv beta iota.
    rewrite <- Hcv.
    unfold bind at 1. rewrite Hrun3. cbv beta iota.
    unfold bind at 1. rewrite Hrun4. cbv beta iota.
    unfold bind at 1. rewrite Hrun5. cbv beta iota.
    unfold ret, derived_from. rewrite Hcv, Hrv, Hs1. reflexivity.
  - unfold same_frame. repeat split; congruence.
Qed.

Lemma first_world_fits (st : Store num) : cells_fit (hooks (first_world st)).
Proof.
  unfold cells_fit, number_cell_fits. simpl.
  repeat apply conj; try lia; intros c Hc; discriminate Hc.
Qed.

Lemma apply_update_fits w u :
  cells_fit (hooks w) -> cells_fit (hooks (apply_update w u)).
Proof.
  intros Hfit. destruct u as [|next|b|st]; simpl.
  - destruct (DashboardPage_run w Hfit) as (w1 & Hrun & Hfit1 & _).
    rewrite Hrun. exact Hfit1.
  - apply (cells_fit_new_prices (hooks w)); auto.
  - apply (cells_fit_ext (hooks w)); auto. apply Hfit.
  - exact Hfit.
Qed.

Lemma after_updates_fits (st : Store num) us :
  cells_fit (hooks (after_updates st us)).
Proof.
  unfold after_updates. generalize (first_world_fits st).
  generalize (first_world st). induction us as [|u us IH]; intros w Hfit.
  - exact Hfit.
  - simpl. apply IH, apply_update_fits, Hfit.
Qed.

End HooksFacts.

(** ** Sums that stop being finite, sums that stay zero

    The facts about rows and aggregates that depend on the arithmetic are
    proved once, from the few laws they use; both models of numbers satisfy
    these laws. *)

Section SingularChange.
Context {num : Type} {N : JSNumber num}.
Implicit Types (a b x : num) (h : Holding.t num) (m : PriceMap num).

Local Open Scope js_scope.

Hypothesis divisor_zero : lit 1 + lit (-100) / lit 100 = lit 0.
Hypothesis div_zero : forall x, isFinite (x / lit 0) = false.
Hypothesis div_zero_pos : forall x, (lit 0 < x) = true -> x / lit 0 = Infinity.
Hypothesis div_zero_neg :
  forall x, (x < lit 0) = true -> x / lit 0 = minus_Infinity.
Hypothesis mul_not_finite :
  forall a b, isFinite b = false -> isFinite (a * b) = false.
Hypothesis sub_not_finite :
  forall a b, isFinite b = false -> isFinite (a - b) = false.
Hypothesis add_not_finite_l :
  forall a b, isFinite a = false -> isFinite (a + b) = false.
Hypothesis add_not_finite_r :
  forall a b, isFinite b = false -> isFinite (a + b) = false.

(* Once a term of a sum is not finite, the sum is not. *)
Lemma sum_not_finite_acc (l : list num) z :
  isFinite z = false -> isFinite (fold_left num_add l z) = false.
Proof.
  revert z. induction l as [|y l IH]; intros z Hz; simpl; [exact Hz|].
  apply IH, add_not_finite_l, Hz.
Qed.

Lemma sum_not_finite (l : list num) y z :
  y ∈ l -> isFinite y = false -> isFinite (fold_left num_add l z) = false.
Proof.
  revert z. induction l as [|y' l IH]; intros z Hin Hy; [inversion Hin|].
  simpl. apply elem_of_cons in Hin as [<-|Hin].
  - apply sum_not_finite_acc, add_not_finite_r, Hy.
  - apply IH; assumption.
Qed.

Lemma singular_change h m (p : PricePoint.t num) :
  obj_get m (Holding.symbol h) = Some p ->
  PricePoint.change24hPct p = lit (-100) ->
  let r := row m h in
  lit 1 + Row.change24hPct r / lit 100 = lit 0
  /\ Row.priceNow r = PricePoint.price p
  /\ isFinite (priceYesterday (Row.priceNow r) (Row.change24hPct r)) = false
  /\ ((lit 0 < PricePoint.price p) = true ->
      priceYesterday (Row.priceNow r) (Row.change24hPct r) = Infinity)
  /\ ((PricePoint.price p < lit 0) = true ->
      priceYesterday (Row.priceNow r) (Row.change24hPct r) = minus_Infinity)
  /\ isFinite (Row.valueChange r) = false
  /\ (forall hs : list (Holding.t num),
        h ∈ hs -> isFinite (yesterdayTotal (rows hs m)) = false).
Proof.
  intros Hget Hchange r.
  assert (Hnow : Row.priceNow r = PricePoint.price p).
  { subst r. unfold row. rewrite Hget. reflexivity. }
  assert (Hch : Row.change24hPct r = lit (-100)).
  { subst r. unfold row. rewrite Hget. exact Hchange. }
  assert (Hy : priceYesterday (Row.priceNow r) (Row.change24hPct r)
               = PricePoint.price p / lit 0).
  { unfold priceYesterday. rewrite Hnow, Hch, divisor_zero. reflexivity. }
  assert (Hyn : isFinite (priceYesterday (Row.priceNow r) (Row.change24hPct r))
                = false).
  { rewrite Hy. apply div_zero. }
  refine (conj _ (conj Hnow (conj Hyn (conj _ (conj _ (conj _ _)))))).
  - rewrite Hch. apply divisor_zero.
  - intros Hpos. rewrite Hy. apply div_zero_pos, Hpos.
  - intros Hneg. rewrite Hy. apply div_zero_neg, Hneg.
  - change (Row.valueChange r)
      with (Row.valueNow r
            - Holding.amount h
              * priceYesterday (Row.priceNow r) (Row.change24hPct r)).
    apply sub_not_finite, mul_not_finite, Hyn.
  - intros hs Hin. unfold yesterdayTotal. rewrite fold_left_add_map.
    apply (sum_not_finite _
             (Row.amount r
              * priceYesterday (Row.priceNow r) (Row.change24hPct r))).
    + apply list_elem_of_fmap. exists r. split; [reflexivity|].
      unfold rows. apply list_elem_of_fmap. exists h. auto.
    + apply mul_not_finite, Hyn.
Qed.

End SingularChange.

Section EmptyPriceMap.
Context {num : Type} {N : JSNumber num}.
Implicit Types (a : num) (h : Holding.t num).

Local Open Scope js_scope.

Hypothesis zero_sum : forall a, isFinite a = true -> lit 0 + a * lit 0 = lit 0.
Hypothesis zero_diff :
  forall a, isFinite a = true -> a * lit 0 - a * lit 0 = lit 0.
Hypothesis yesterday_zero : priceYesterday (lit 0) (lit 0) = lit 0.
Hypothesis zero_plus_zero : lit 0 + lit 0 = lit 0.
Hypothesis zero_le_zero : (lit 0 <= lit 0) = true.

(* Against the empty price map, a holding of a finite amount adds nothing
   to a total that is 0. *)
Lemma row_empty h :
  isFinite (Holding.amount h) = true ->
  lit 0 + Row.valueNow (row [] h) = lit 0
  /\ lit 0 + Row.valueChange (row [] h) = lit 0
  /\ lit 0
     + Row.amount (row [] h)
       * priceYesterday (Row.priceNow (row [] h))
           (Row.change24hPct (row [] h))
     = lit 0.
Proof.
  intros Ha. unfold row. simpl obj_get.
  cbn [fmap option_fmap option_map default].
  cbn [Row.valueNow Row.valueChange Row.amount Row.priceNow Row.change24hPct].
  rewrite yesterday_zero, (zero_diff _ Ha), (zero_sum _ Ha). auto.
Qed.

Lemma sum_stays_zero (f : Row.t num -> num) (rs : list (Row.t num)) :
  Forall (fun r => lit 0 + f r = lit 0) rs ->
  fold_left (fun sum r => sum + f r) rs (lit 0) = lit 0.
Proof.
  induction 1 as [|r rs Hr _ IH]; simpl; [reflexivity|].
  rewrite Hr. exact IH.
Qed.

Lemma rows_empty_Forall (P : Row.t num -> Prop) (hs : list (Holding.t num)) :
  Forall (fun h => isFinite (Holding.amount h) = true) hs ->
  (forall h, isFinite (Holding.amount h) = true -> P (row [] h)) ->
  Forall P (rows hs []).
Proof.
  intros Hfin HP. unfold rows. apply Forall_fmap.
  eapply Forall_impl; [exact Hfin|]. intros h Hh. apply HP, Hh.
Qed.

Lemma aggregates_empty (hs : list (Holding.t num)) :
  Forall (fun h => isFinite (Holding.amount h) = true) hs ->
  let rs := rows hs [] in
  totalBalance rs = lit 0
  /\ dayChangeAmount rs = lit 0
  /\ yesterdayTotal rs = lit 0
  /\ dayChangePct rs (totalBalance rs) = lit 0.
Proof.
  intros Hfin rs.
  assert (Hy : yesterdayTotal rs = lit 0).
  { unfold yesterdayTotal.
    apply (sum_stays_zero
             (fun r => Row.amount r
                       * priceYesterday (Row.priceNow r)
                           (Row.change24hPct r))).
    apply rows_empty_Forall; [exact Hfin|]. intros h Hh.
    apply (row_empty h Hh). }
  refine (conj _ (conj _ (conj Hy _))).
  - unfold totalBalance. apply (sum_stays_zero Row.valueNow).
    apply rows_empty_Forall; [exact Hfin|]. intros h Hh.
    apply (row_empty h Hh).
  - unfold dayChangeAmount. apply (sum_stays_zero Row.valueChange).
    apply rows_empty_Forall; [exact Hfin|]. intros h Hh.
    apply (row_empty h Hh).
  - unfold dayChangePct. rewrite Hy, zero_le_zero. reflexivity.
Qed.

End EmptyPriceMap.

(** * The statements of the specification *)




(** C2 — The row derived from a holding [h] and a price snapshot [m]: its
    price and 24h change are those of [m] at the symbol of [h], or 0 and 0
    when [m] has no such entry; the value is amount times price, the value
    change is value minus amount times yesterday's price, which is
    price / (1 + change / 100).  A missing symbol throws nothing: every
    holding gets its row. *)
Theorem row_derivation :
  forall (num : Type) (N : JSNumber num) (h : Holding.t num) (m : PriceMap num),
    let r := row m h in
    Row.priceNow r
    = match obj_get m (Holding.symbol h) with
      | Some p => PricePoint.price p
      | None => lit 0
      end
    /\ Row.change24hPct r
       = match obj_get m (Holding.symbol h) with
         | Some p => PricePoint.change24hPct p
         | None => lit 0
         end
    /\ priceYesterday (Row.priceNow r) (Row.change24hPct r)
       = (Row.priceNow r / (lit 1 + Row.change24hPct r / lit 100))%js
    /\ Row.valueNow r = (Holding.amount h * Row.priceNow r)%js
    /\ Row.valueChange r
       = (Row.valueNow r
          - Holding.amount h
            * priceYesterday (Row.priceNow r) (Row.change24hPct r))%js
    /\ (Holding.symbol h ∉ Object_keys m ->
        Row.priceNow r = lit 0 /\ Row.change24hPct r = lit 0)
    /\ (Row.id r, Row.symbol r, Row.name r, Row.amount r)
       = (Holding.id h, Holding.symbol h, Holding.name h, Holding.amount h)
    /\ (forall hs : list (Holding.t num),
          rows hs m = map (row m) hs /\ length (rows hs m) = length hs).
Proof.
  intros num N h m r. subst r. unfold row.
  destruct (obj_get m (Holding.symbol h)) as [p|] eqn:Hget; simpl;
    repeat apply conj; try reflexivity.
  - intros Hnin. rewrite (obj_get_None _ _ Hnin) in Hget. discriminate.
  - intros hs. split; [reflexivity | apply rows_length].
  - intros _. split; reflexivity.
  - intros hs. split; [reflexivity | apply rows_length].
Qed.

Lemma row_derivation_witness :
  let h : Holding.t xnum :=
    {| Holding.id := "doge"; Holding.symbol := "DOGE";
       Holding.name := "Dogecoin"; Holding.amount := lit 1000 |} in
  Row.priceNow (row state0 h) = lit 0
  /\ Row.change24hPct (row state0 h) = lit 0.
Proof.
  intros h. apply (row_derivation xnum _ h state0).
  unfold Object_keys. simpl. set_solver.
Defined.

(** C3 — The aggregates of the rows: the total balance is the sum of their
    values, the day change amount the sum of their value changes, both
    added up from 0 in the order of the rows; with yesterday's total the
    sum of amount times yesterday's price, the day change percentage is 0
    when yesterday's total is [<= 0] and
    [(totalBalance - yesterday) / yesterday * 100] otherwise.  Against the
    empty price map, holdings of finite amounts give a total balance, a day
    change amount and a day change percentage of 0, on exact numbers and on
    binary64. *)
Theorem portfolio_aggregates :
  forall (num : Type) (N : JSNumber num),
    (forall (hs : list (Holding.t num)) (m : PriceMap num),
        let rs := rows hs m in
        let yesterday :=
          fold_left num_add
            (map (fun r => (Row.amount r
                            * priceYesterday (Row.priceNow r)
                                (Row.change24hPct r))%js) rs)
            (lit 0) in
        totalBalance rs = fold_left num_add (map Row.valueNow rs) (lit 0)
        /\ dayChangeAmount rs
           = fold_left num_add (map Row.valueChange rs) (lit 0)
        /\ yesterdayTotal rs = yesterday
        /\ dayChangePct rs (totalBalance rs)
           = if (yesterday <= lit 0)%js then lit 0
             else ((totalBalance rs - yesterday) / yesterday * lit 100)%js)
    /\ (number_model num N ->
        forall hs : list (Holding.t num),
          Forall (fun h => isFinite (Holding.amount h) = true) hs ->
          let rs := rows hs [] in
          totalBalance rs = lit 0
          /\ dayChangeAmount rs = lit 0
          /\ yesterdayTotal rs = lit 0
          /\ dayChangePct rs (totalBalance rs) = lit 0).
Proof.
  intros num N. split.
  - intros hs m rs yesterday.
    assert (Hy : yesterdayTotal rs = yesterday).
    { unfold yesterdayTotal. apply fold_left_add_map. }
    refine (conj _ (conj _ (conj Hy _))).
    + unfold totalBalance. apply fold_left_add_map.
    + unfold dayChangeAmount. apply fold_left_add_map.
    + unfold dayChangePct. rewrite Hy. reflexivity.
  - intros [|] hs Hfin.
    + apply aggregates_empty;
        first [ assumption | apply X_zero_sum | apply X_zero_diff
              | reflexivity | xnum_eq ].
    + apply aggregates_empty;
        first [ assumption | apply F_zero_sum | apply F_zero_diff
              | reflexivity ].
Qed.

(* The page's own holdings, on binary64. *)
Lemma portfolio_aggregates_witness :
  let rs := rows (num:=float) holdings [] in
  totalBalance rs = lit 0
  /\ dayChangeAmount rs = lit 0
  /\ yesterdayTotal rs = lit 0
  /\ dayChangePct rs (totalBalance rs) = lit 0.
Proof.
  apply (proj2 (portfolio_aggregates float _) binary64_numbers holdings).
  repeat constructor.
Defined.

(** C4 — The worked example, 0.0523 BTC at 1185000 with a 24h change of
    1.42: the row's value is 61975.50 exactly, yesterday's price is
    1168408.6 to one decimal place and the value change 867.73 to two, on
    exact numbers and on binary64. *)
Theorem worked_example :
  forall (num : Type) (N : JSNumber num),
    number_model num N ->
    exists r : Row.t num,
      rows example_holdings example_prices = [r]
      /\ Row.priceNow r = lit 1185000
      /\ Row.change24hPct r = lit 1.42
      /\ Row.valueNow r = lit 61975.50
      /\ within (priceYesterday (Row.priceNow r) (Row.change24hPct r))
           (lit 1168408.6) (lit 0.05) = true
      /\ within (Row.valueChange r) (lit 867.73) (lit 0.005) = true.
Proof.
  intros num N [|].
  - eexists. split; [reflexivity|]. repeat apply conj; xnum_eq.
  - eexists. split; [reflexivity|]. vm_compute. auto.
Qed.

Lemma worked_example_witness :
  exists r : Row.t float,
    rows example_holdings example_prices = [r]
    /\ Row.priceNow r = lit 1185000
    /\ Row.change24hPct r = lit 1.42
    /\ Row.valueNow r = lit 61975.50
    /\ within (priceYesterday (Row.priceNow r) (Row.change24hPct r))
         (lit 1168408.6) (lit 0.05) = true
    /\ within (Row.valueChange r) (lit 867.73) (lit 0.005) = true.
Proof. apply (worked_example float _ binary64_numbers). Defined.

(* The numbers the specification gives for the example are not the ones the
   derivation yields: the value is 15 away from 61990.50, yesterday's price
   more than 6 away from 1168401.7 and the value change more than 2 away
   from 864.86.  So it is on exact numbers, and so it is on binary64. *)
Lemma worked_example_spec_numbers_are_off :
  (exists r : Row.t xnum,
      rows example_holdings example_prices = [r]
      /\ within (Row.valueNow r) (lit 61990.50) (lit 14) = false
      /\ within (priceYesterday (Row.priceNow r) (Row.change24hPct r))
           (lit 1168401.7) (lit 6) = false
      /\ within (Row.valueChange r) (lit 864.86) (lit 2) = false)
  /\ (exists r : Row.t float,
        rows example_holdings example_prices = [r]
        /\ within (Row.valueNow r) (lit 61990.50) (lit 14) = false
        /\ within (priceYesterday (Row.priceNow r) (Row.change24hPct r))
             (lit 1168401.7) (lit 6) = false
        /\ within (Row.valueChange r) (lit 864.86) (lit 2) = false).
Proof.
  split; (eexists; split; [reflexivity|]; vm_compute; auto).
Qed.

(** C5 — A refresh returns and installs a map with exactly the key set of
    the state it started from, whatever numbers are drawn; and every state
    the store can reach from its seed has exactly the keys BTC, ETH, SOL and
    XRP. *)
Theorem refresh_keeps_key_set :
  forall (num : Type) (N : JSNumber num) (random : nat -> num),
    (forall w : Store num,
        exists next,
          refreshMockPrices random w
          = (Returned (spread next),
             {| state := next;
                drawn := (drawn w + 2 * length (state w))%nat |})
          /\ keyset (spread next) = keyset (state w)
          /\ keyset next = keyset (state w))
    /\ (forall w : Store num,
          reachable random w ->
          keyset (state w) = {[ "BTC"; "ETH"; "SOL"; "XRP" ]}
          /\ Object_keys (state w) = ["BTC"; "ETH"; "SOL"; "XRP"]).
Proof.
  intros num N random. split.
  - intros w. destruct (refreshMockPrices_total random w) as (next & Hrun & Hk).
    exists next. rewrite keyset_spread. auto.
  - intros w Hw. pose proof (reachable_keys random w Hw) as Hkeys.
    split; [|exact Hkeys]. unfold keyset. rewrite Hkeys. set_solver.
Qed.

Lemma refresh_keeps_key_set_witness :
  Object_keys
    (state (refreshMockPrices (fun _ => lit 0.5) (store0 (num:=xnum))).2)
  = ["BTC"; "ETH"; "SOL"; "XRP"].
Proof.
  apply (proj2 (refresh_keeps_key_set xnum _ (fun _ => lit 0.5))).
  apply reach_refresh. apply reach_init.
Defined.

(** C6 — Every call of [handleRefreshPrices] raises the busy flag before it
    awaits the refresh, and lowers it when the awaited promise settles,
    fulfilled or rejected alike (the [finally] block); the prices are
    replaced only when it was fulfilled.  So a call takes the page from
    Idle to Refreshing and, once its promise has settled, to Idle.  The two
    refresh buttons are rendered disabled exactly when the flag is up.  The
    handler itself does not look at the flag: called while a call is in
    flight, it starts another. *)
Theorem refresh_raises_and_releases_busy_flag :
  forall (num : Type) (N : JSNumber num),
    (forall pg : Page num,
        exists k,
          run handleRefreshPrices pg
          = (Suspended k,
             {| currency := currency pg; prices := prices pg;
                loadingPrices := true |})
          /\ forall (r : outcome (PriceMap num)) (pg' : Page num),
               run (k r) pg'
               = (Finished match r with
                           | Returned _ => Returned tt
                           | Thrown e => Thrown e
                           end,
                  {| currency := currency pg';
                     prices := match r with
                               | Returned next => next
                               | Thrown _ => prices pg'
                               end;
                     loadingPrices := false |}))
    /\ (forall pg : Page num,
          panelActionDisabled pg = loadingPrices pg
          /\ miniRefreshDisabled pg = loadingPrices pg)
    /\ (forall (pg pg' : Page num) (r : outcome (PriceMap num)),
          phase_of (run handleRefreshPrices pg).2 = Refreshing
          /\ phase_of (run (afterAwait r) pg').2 = Idle)
    /\ (forall a : App (num:=num),
          loadingPrices (page (invoke a)) = true
          /\ length (pending (invoke a)) = S (length (pending a))).
Proof.
  intros num N. refine (conj _ (conj _ (conj _ _))).
  - intros pg. exists afterAwait. split.
    + apply handleRefreshPrices_run.
    + intros r pg'. apply afterAwait_run.
  - intros pg. split; reflexivity.
  - intros pg pg' r. rewrite handleRefreshPrices_run, afterAwait_run.
    split; reflexivity.
  - intros a. rewrite invoke_run. simpl.
    split; [reflexivity|]. rewrite length_app. simpl. lia.
Qed.

(** C7 — A holding whose symbol maps to a price point with a 24h change of
    -100: the divisor [1 + change24hPct / 100] of [priceYesterday] is zero
    and nothing guards the division, so [priceYesterday] is not a finite
    number ([Infinity] for a positive price, [-Infinity] for a negative
    one), and neither is the row's value change, nor yesterday's total of
    any holdings list that has this holding; on exact numbers and on
    binary64. *)
Theorem change_of_minus_100_divides_by_zero :
  forall (num : Type) (N : JSNumber num),
    number_model num N ->
    forall (h : Holding.t num) (m : PriceMap num) (p : PricePoint.t num),
      obj_get m (Holding.symbol h) = Some p ->
      PricePoint.change24hPct p = lit (-100) ->
      let r := row m h in
      (lit 1 + Row.change24hPct r / lit 100)%js = lit 0
      /\ Row.priceNow r = PricePoint.price p
      /\ isFinite (priceYesterday (Row.priceNow r) (Row.change24hPct r))
         = false
      /\ ((lit 0 < PricePoint.price p)%js = true ->
          priceYesterday (Row.priceNow r) (Row.change24hPct r) = Infinity)
      /\ ((PricePoint.price p < lit 0)%js = true ->
          priceYesterday (Row.priceNow r) (Row.change24hPct r)
          = minus_Infinity)
      /\ isFinite (Row.valueChange r) = false
      /\ (forall hs : list (Holding.t num),
            h ∈ hs -> isFinite (yesterdayTotal (rows hs m)) = false).
Proof.
  intros num N [|] h m p.
  - apply singular_change.
    + apply singular_divisor.
    + apply X_div_zero.
    + apply X_div_zero_pos.
    + apply X_div_zero_neg.
    + apply X_mul_not_finite.
    + apply X_sub_not_finite.
    + apply X_add_not_finite_l.
    + apply X_add_not_finite_r.
  - apply singular_change.
    + reflexivity.
    + apply F_div_zero'.
    + apply F_div_zero_pos.
    + apply F_div_zero_neg.
    + apply F_mul_not_finite.
    + apply F_sub_not_finite.
    + apply F_add_not_finite_l'.
    + apply F_add_not_finite_r'.
Qed.

(* The page's holding of BTC against a BTC that lost 100% in a day, on
   binary64. *)
Lemma change_of_minus_100_divides_by_zero_witness :
  let h : Holding.t float :=
    {| Holding.id := "btc"; Holding.symbol := "BTC";
       Holding.name := "Bitcoin"; Holding.amount := lit 0.0523 |} in
  let p : PricePoint.t float :=
    {| PricePoint.symbol := "BTC"; PricePoint.price := lit 1185000;
       PricePoint.change24hPct := lit (-100) |} in
  priceYesterday (Row.priceNow (row [("BTC", p)] h))
    (Row.change24hPct (row [("BTC", p)] h)) = Infinity
  /\ isFinite (Row.valueChange (row [("BTC", p)] h)) = false.
Proof.
  intros h p.
  destruct (change_of_minus_100_divides_by_zero float _ binary64_numbers
              h [("BTC", p)] p eq_refl eq_refl)
    as (_ & _ & _ & Hpos & _ & Hchange & _).
  split; [apply Hpos; reflexivity | exact Hchange].
Defined.

(** C8 — What a render of [DashboardPage] derives is a function of the
    holdings and of the price map the state holds, and of nothing else.
    After any sequence of renders, of calls of [setPrices] and of
    [setLoadingPrices], and of runs of the price service, a render returns
    the rows, the total balance, the day change amount and the day change
    percentage that [rows], [totalBalance], [dayChangeAmount] and
    [dayChangePct] make of the holdings and of that price map: no value a
    [useMemo] has kept from a render before, no other state of the
    component and nothing of the store of the service, the count of the
    numbers drawn included, enters it.  The render leaves the states and
    that store as they were, and a second render returns the same again.  So
    two renders, after any two histories, that find equal price maps return
    the same rows and the same aggregates. *)
Theorem derivation_is_deterministic :
  forall (num : Type) (N : JSNumber num) (O : SameValue num)
         (st : Store num) (us : list update),
    let w := after_updates st us in
    let shown := derived_from (prices (state_cells (hooks w))) in
    (DashboardPage w).1 = Returned shown
    /\ service_store (DashboardPage w).2 = service_store w
    /\ state_cells (hooks (DashboardPage w).2) = state_cells (hooks w)
    /\ (DashboardPage (DashboardPage w).2).1 = Returned shown
    /\ forall (st' : Store num) (us' : list update),
         prices (state_cells (hooks (after_updates st' us')))
         = prices (state_cells (hooks w)) ->
         (DashboardPage (after_updates st' us')).1 = (DashboardPage w).1.
Proof.
  intros num N O st us w shown.
  destruct (DashboardPage_run w (after_updates_fits st us))
    as (w1 & Hrun & Hfit1 & Hs & Hp & Hv).
  destruct (DashboardPage_run w1 Hfit1) as (w2 & Hrun2 & _).
  rewrite Hrun. cbn [fst snd].
  refine (conj eq_refl (conj Hv (conj Hs (conj _ _)))).
  - rewrite Hrun2, Hs. reflexivity.
  - intros st' us' Hsame.
    destruct (DashboardPage_run _ (after_updates_fits st' us'))
      as (w' & Hrun' & _).
    rewrite Hrun', Hsame. reflexivity.
Qed.

(* Two histories that end with the seed prices in the state: one that has
   rendered on other prices before and holds their memos, with the busy flag
   up and the service run since; one that has not rendered yet. *)
Lemma derivation_is_deterministic_witness :
  (DashboardPage
     (after_updates (num:=float) store0 [PricesSet state0])).1
  = (DashboardPage
       (after_updates store0
          [Rendered; PricesSet example_prices; Rendered; PricesSet state0;
           LoadingPricesSet true;
           ServiceRan (refreshMockPrices (fun _ => lit 0.5) store0).2])).1.
Proof.
  destruct (derivation_is_deterministic float _ _ store0
              [Rendered; PricesSet example_prices; Rendered;
               PricesSet state0; LoadingPricesSet true;
               ServiceRan (refreshMockPrices (fun _ => lit 0.5) store0).2])
    as (_ & _ & _ & _ & Hsame).
  apply (Hsame store0 [PricesSet state0]). reflexivity.
Defined.

(** C9 — [getMockPrices] never throws and leaves the store as it found it:
    whatever runs after it sees the state it would have seen without it, and
    two calls in a row return the same mapping, with the keys of the state
    (and, the state being a well-formed object, its very properties). *)
Theorem snapshot_reads_only :
  forall (num : Type) (N : JSNumber num) (w : Store num),
    getMockPrices w = (Returned (spread (state w)), w)
    /\ bind getMockPrices (fun a => bind getMockPrices (fun b => ret (a, b))) w
       = (Returned (spread (state w), spread (state w)), w)
    /\ (forall (A : Type) (later : M (Store num) A),
          bind getMockPrices (fun _ => later) w = later w)
    /\ keyset (spread (state w)) = keyset (state w)
    /\ (wf_obj (state w) -> spread (state w) = state w).
Proof.
  intros num N w. repeat split.
  - apply keyset_spread.
  - apply spread_wf.
Qed.

Lemma snapshot_reads_only_witness :
  spread (state (store0 (num:=xnum))) = state (store0 (num:=xnum)).
Proof.
  apply (snapshot_reads_only xnum _ store0).
  unfold wf_obj. simpl. repeat constructor; set_solver.
Defined.

(** C10 — The percentage in the day-change marker is
    [formatPct (clamp (dayChangePct, -99, 999))], not [dayChangePct] itself.
    Whenever the derived percentage is a number (not [NaN]) the one shown
    lies in [-99, 999]; whenever the derived one is below -99 or above 999
    the one shown is another number; a derived [NaN] is shown as [NaN]; on
    exact numbers and on binary64. *)
Theorem day_change_shown_is_clamped :
  forall (num : Type) (N : JSNumber num),
    (forall (toFixed : num -> nat -> string) (rs : list (Row.t num))
            (total : num),
        dayChangeShown rs total
        = clamp (dayChangePct rs total) (lit (-99)) (lit 999)
        /\ dayChangeText toFixed rs total
           = formatPct toFixed
               (clamp (dayChangePct rs total) (lit (-99)) (lit 999)))
    /\ (number_model num N ->
        forall (hs : list (Holding.t num)) (m : PriceMap num),
          let rs := rows hs m in
          let pct := dayChangePct rs (totalBalance rs) in
          let shown := dayChangeShown rs (totalBalance rs) in
          (isNaN pct = false ->
           (lit (-99) <= shown)%js = true /\ (shown <= lit 999)%js = true)
          /\ ((pct < lit (-99))%js = true \/ (lit 999 < pct)%js = true ->
              shown <> pct)
          /\ (isNaN pct = true -> isNaN shown = true)).
Proof.
  intros num N. split.
  - intros toFixed rs total. split; reflexivity.
  - intros [|] hs m rs pct shown; subst shown; unfold dayChangeShown;
      fold pct.
    + refine (conj _ (conj _ _)).
      * apply X_clamp_bounds.
      * apply clamp_moves.
      * apply X_clamp_NaN.
    + refine (conj _ (conj _ _)).
      * apply F_clamp_bounds.
      * apply F_clamp_moves.
      * apply F_clamp_NaN.
Qed.

(* The page's holdings against the seed prices, on binary64. *)
Lemma day_change_shown_is_clamped_witness :
  let rs := rows (num:=float) holdings state0 in
  (lit (-99) <= dayChangeShown rs (totalBalance rs))%js = true
  /\ (dayChangeShown rs (totalBalance rs) <= lit 999)%js = true.
Proof.
  apply (proj2 (day_change_shown_is_clamped float _) binary64_numbers
           holdings state0).
  reflexivity.
Defined.

(* After 170 refreshes that draw [draws_to_minus_100], the 24h change of BTC
   is -100: the day change percentage of the page is [NaN], and so is the
   percentage shown, which no comparison places in [-99, 999].  So it is on
   exact numbers, and so it is on binary64. *)
Lemma day_change_shown_NaN :
  (let w := refreshed (num:=xnum) draws_to_minus_100 170 store0 in
   let rs := rows holdings (state w) in
   let shown := dayChangeShown rs (totalBalance rs) in
   reachable draws_to_minus_100 w
   /\ (PricePoint.change24hPct <$> obj_get (state w) "BTC")
      = Some (lit (-100))
   /\ isNaN shown = true
   /\ (lit (-99) <= shown)%js = false
   /\ (shown <= lit 999)%js = false)
  /\ (let w := refreshed (num:=float) draws_to_minus_100 170 store0 in
      let rs := rows holdings (state w) in
      let shown := dayChangeShown rs (totalBalance rs) in
      reachable draws_to_minus_100 w
      /\ (PricePoint.change24hPct <$> obj_get (state w) "BTC")
         = Some (lit (-100))
      /\ isNaN shown = true
      /\ (lit (-99) <= shown)%js = false
      /\ (shown <= lit 999)%js = false).
Proof.
  split.
  - split; [apply reachable_refreshed, reach_init|].
    repeat apply conj; xnum_eq.
  - split; [apply reachable_refreshed, reach_init|].
    vm_compute. auto.
Qed.

(** * Further properties of the code *)

(** ** The store, refresh after refresh *)

Section StoreFacts.
Context {num : Type} `{JSNumber num}.
Variable random : nat -> num.
Implicit Types (w : Store num) (st es : PriceMap num).

Lemma obj_get_Some_elem_of {V : Type} (o : list (string * V)) k v :
  obj_get o k = Some v -> (k, v) ∈ o.
Proof.
  induction o as [|[k0 v0] o IH]; simpl; [discriminate|].
  destruct (decide (k0 = k)) as [->|].
  - intros Hv. injection Hv as ->. left.
  - intros Hv. right. apply IH, Hv.
Qed.

(* An entry of a refreshed map comes from the entry at its position. *)
Lemma advance_from_lookup_inv n es i k p' :
  advance_from random n es !! i = Some (k, p') ->
  exists p,
    es !! i = Some (k, p)
    /\ p' = advanced k p (driftPct_at random n i) (delta_at random n i).
Proof.
  revert n i. induction es as [|[k0 p0] es IH]; intros n i Hi.
  - destruct i; discriminate.
  - destruct i as [|i]; simpl in *.
    + injection Hi as <- <-. exists p0. split; [reflexivity|].
      unfold driftPct_at, delta_at.
      replace (n + 2 * 0)%nat with n by lia.
      replace (n + 1)%nat with (S n) by lia. reflexivity.
    + destruct (IH (S (S n)) i Hi) as (p & Hp & ->).
      exists p. split; [exact Hp|]. unfold driftPct_at, delta_at.
      replace (S (S n) + 2 * i)%nat with (n + 2 * S i)%nat by lia.
      reflexivity.
Qed.

Lemma advance_from_elem_of n es k p' :
  (k, p') ∈ advance_from random n es ->
  exists i p,
    es !! i = Some (k, p)
    /\ p' = advanced k p (driftPct_at random n i) (delta_at random n i).
Proof.
  intros Hin. apply list_elem_of_lookup in Hin as [i Hi].
  destruct (advance_from_lookup_inv _ _ _ _ _ Hi) as (p & Hp & ->).
  exists i, p. auto.
Qed.

End StoreFacts.

(** X1 — From a state the store can reach, a refresh followed by a snapshot:
    neither throws, the snapshot is the very mapping the refresh returned,
    it is the state the store now holds, and the refresh has drawn two
    numbers for each symbol, eight in all. *)
Theorem snapshot_after_refresh :
  forall (num : Type) (N : JSNumber num) (random : nat -> num)
         (w : Store num),
    reachable random w ->
    exists next,
      bind (refreshMockPrices random)
        (fun returned =>
           bind getMockPrices (fun snapshot => ret (returned, snapshot))) w
      = (Returned (next, next),
         {| state := next; drawn := (drawn w + 8)%nat |})
      /\ Object_keys next = ["BTC"; "ETH"; "SOL"; "XRP"].
Proof.
  intros num N random w Hw.
  pose proof (reachable_wf random w Hw) as Hwf.
  pose proof (reachable_keys random w Hw) as Hkeys.
  exists (advance_from random (drawn w) (state w)). split.
  - unfold bind. rewrite (refreshMockPrices_run random w Hwf).
    unfold getMockPrices, get_state, bind, ret. simpl.
    rewrite spread_wf.
    + do 3 f_equal.
      assert (Hlen : length (state w) = 4%nat).
      { rewrite <- (length_fmap fst). fold (Object_keys (state w)).
        rewrite Hkeys. reflexivity. }
      rewrite Hlen. reflexivity.
    + unfold wf_obj. rewrite advance_from_keys. exact Hwf.
  - rewrite advance_from_keys. exact Hkeys.
Qed.

Lemma snapshot_after_refresh_witness :
  exists next,
    bind (refreshMockPrices (num:=float) (fun _ => lit 0.5))
      (fun returned =>
         bind getMockPrices (fun snapshot => ret (returned, snapshot)))
      store0
    = (Returned (next, next), {| state := next; drawn := 8 |})
    /\ Object_keys next = ["BTC"; "ETH"; "SOL"; "XRP"].
Proof.
  apply (snapshot_after_refresh float _ (fun _ => lit 0.5) store0).
  apply reach_init.
Defined.

(** X2 — In every state the store can reach, no key occurs twice and every
    price point is stored under its own symbol: the [symbol] inside the
    point is the key it is found at. *)
Theorem stored_under_own_symbol :
  forall (num : Type) (N : JSNumber num) (random : nat -> num)
         (w : Store num),
    reachable random w ->
    NoDup (Object_keys (state w))
    /\ forall k p, obj_get (state w) k = Some p -> PricePoint.symbol p = k.
Proof.
  intros num N random w Hw. split; [apply (reachable_wf random w Hw)|].
  induction Hw as [|w Hw IH|w Hw IH].
  - intros k p Hget. apply obj_get_Some_elem_of in Hget.
    simpl in Hget. set_unfold in Hget.
    destruct Hget as [Hk|[Hk|[Hk|[Hk|[]]]]];
      injection Hk as -> ->; reflexivity.
  - rewrite getMockPrices_run. exact IH.
  - rewrite (refreshMockPrices_run random w (reachable_wf random w Hw)).
    simpl. intros k p' Hget. apply obj_get_Some_elem_of in Hget.
    destruct (advance_from_elem_of random _ _ _ _ Hget) as (i & p & _ & ->).
    reflexivity.
Qed.

Lemma stored_under_own_symbol_witness :
  exists p,
    obj_get
      (state (refreshMockPrices (num:=float) (fun _ => lit 0.5) store0).2)
      "XRP"
    = Some p
    /\ PricePoint.symbol p = "XRP".
Proof.
  eexists. split; [reflexivity|].
  apply (stored_under_own_symbol float _ (fun _ => lit 0.5)
           (refreshMockPrices (fun _ => lit 0.5) store0).2).
  - apply reach_refresh, reach_init.
  - reflexivity.
Defined.

(** ** The page on top of the store *)

Section PageFacts.
Context {num : Type} `{JSNumber num}.
Variable random : nat -> num.
Implicit Types (a : App (num:=num)) (w : Store num).

(* The page holds the state of the store, which is one the store can
   reach: so it is after mounting, and a click, a settled refresh and a
   render keep it so, however many calls are in flight. *)
Lemma mount_in_sync w :
  reachable random w ->
  reachable random (store (mount w))
  /\ prices (page (mount w)) = state (store (mount w))
  /\ Forall (eq afterAwait) (pending (mount w)).
Proof.
  intros Hw. unfold mount. rewrite getMockPrices_run. simpl.
  refine (conj Hw (conj _ _)).
  - apply spread_wf, (reachable_wf random w Hw).
  - constructor.
Qed.

Lemma step_in_sync a e :
  reachable random (store a)
  /\ prices (page a) = state (store a)
  /\ Forall (eq afterAwait) (pending a) ->
  reachable random (store (step (refreshMockPrices random) a e))
  /\ prices (page (step (refreshMockPrices random) a e))
     = state (store (step (refreshMockPrices random) a e))
  /\ Forall (eq afterAwait)
       (pending (step (refreshMockPrices random) a e)).
Proof.
  intros (Hw & Hp & Ha).
  refine (conj _ (conj _ (step_pending _ a e Ha))).
  - destruct e; simpl.
    + unfold click. destruct (panelActionDisabled (view a)); [exact Hw|].
      rewrite invoke_run. exact Hw.
    + destruct (pending a) as [|k rest] eqn:Hpend.
      * unfold settle. rewrite Hpend. exact Hw.
      * apply Forall_cons in Ha as [<- _].
        rewrite (settle_run _ a rest Hpend). apply reach_refresh, Hw.
    + exact Hw.
  - destruct e; simpl.
    + unfold click. destruct (panelActionDisabled (view a)); [exact Hp|].
      rewrite invoke_run. exact Hp.
    + destruct (pending a) as [|k rest] eqn:Hpend.
      * unfold settle. rewrite Hpend. exact Hp.
      * apply Forall_cons in Ha as [<- _].
        rewrite (settle_run _ a rest Hpend).
        rewrite (refreshMockPrices_run random _ (reachable_wf random _ Hw)).
        reflexivity.
    + exact Hp.
Qed.

Lemma steps_in_sync a es :
  reachable random (store a)
  /\ prices (page a) = state (store a)
  /\ Forall (eq afterAwait) (pending a) ->
  reachable random (store (steps (refreshMockPrices random) a es))
  /\ prices (page (steps (refreshMockPrices random) a es))
     = state (store (steps (refreshMockPrices random) a es)).
Proof.
  revert a. induction es as [|e es IH]; intros a Ha; simpl.
  - destruct Ha as (Hw & Hp & _). auto.
  - apply IH, step_in_sync, Ha.
Qed.

End PageFacts.

(** X3 — The page wired to the price service, from its mount on and through
    any sequence of clicks on a refresh button and of refreshes that settle:
    the prices the page holds are the state of the store, and each of the
    page's four holdings finds its price point there, filed under the
    holding's symbol; no row of the table ever falls back to the price 0 of
    a missing symbol. *)
Theorem page_shows_the_store :
  forall (num : Type) (N : JSNumber num) (random : nat -> num)
         (w : Store num) (es : list event),
    reachable random w ->
    let a := steps (refreshMockPrices random) (mount w) es in
    prices (page a) = state (store a)
    /\ reachable random (store a)
    /\ Forall
         (fun h =>
            exists p,
              obj_get (prices (page a)) (Holding.symbol h) = Some p
              /\ PricePoint.symbol p = Holding.symbol h
              /\ Row.priceNow (row (prices (page a)) h) = PricePoint.price p
              /\ Row.change24hPct (row (prices (page a)) h)
                 = PricePoint.change24hPct p)
         holdings.
Proof.
  intros num N random w es Hw a.
  destruct (steps_in_sync random (mount w) es (mount_in_sync random w Hw))
    as (Hreach & Hsync).
  fold a in Hreach, Hsync. refine (conj Hsync (conj Hreach _)).
  rewrite Hsync.
  pose proof (reachable_keys random _ Hreach) as Hkeys.
  assert (Hrow : forall h,
             Holding.symbol h ∈ Object_keys (state (store a)) ->
             exists p,
               obj_get (state (store a)) (Holding.symbol h) = Some p
               /\ PricePoint.symbol p = Holding.symbol h
               /\ Row.priceNow (row (state (store a)) h) = PricePoint.price p
               /\ Row.change24hPct (row (state (store a)) h)
                  = PricePoint.change24hPct p).
  { intros h Hin. destruct (obj_get_is_Some _ _ Hin) as [p Hp].
    exists p. split; [exact Hp|]. split.
    - apply obj_get_Some_elem_of in Hp.
      clear Hsync Hkeys Hin. revert Hp.
      generalize (Holding.symbol h). intros k Hp.
      induction Hreach as [|w0 Hw0 IH|w0 Hw0 IH].
      + simpl in Hp. set_unfold in Hp.
        destruct Hp as [Hk|[Hk|[Hk|[Hk|[]]]]];
          injection Hk as -> ->; reflexivity.
      + rewrite getMockPrices_run in Hp. apply IH, Hp.
      + rewrite (refreshMockPrices_run random w0
                   (reachable_wf random w0 Hw0)) in Hp.
        simpl in Hp.
        destruct (advance_from_elem_of random _ _ _ _ Hp)
          as (i & p0 & _ & ->).
        reflexivity.
    - unfold row. rewrite Hp. split; reflexivity. }
  rewrite Hkeys in Hrow.
  repeat constructor; apply Hrow; simpl; set_solver.
Qed.

Lemma page_shows_the_store_witness :
  let a :=
    steps (refreshMockPrices (num:=float) (fun _ => lit 0.5))
      (mount store0) [Click; Click; Settle; Click] in
  prices (page a) = state (store a).
Proof.
  apply (page_shows_the_store float _ (fun _ => lit 0.5) store0
           [Click; Click; Settle; Click]).
  apply reach_init.
Defined.

(** X4 — The busy flag is one boolean, not a count of the calls in flight:
    when [handleRefreshPrices] has been called again while a call was
    waiting (which the disabled buttons prevent, and nothing else), the
    first refresh to settle lowers the flag and enables the buttons again
    while the other call still waits. *)
Theorem first_settled_call_lowers_the_flag :
  forall (num : Type) (N : JSNumber num)
         (service : M (Store num) (PriceMap num)) (a : App (num:=num)),
    one_in_flight a ->
    let racing := invoke (invoke a) in
    (2 <= length (pending racing))%nat
    /\ loadingPrices (page racing) = true
    /\ loadingPrices (page (settle service racing)) = false
    /\ panelActionDisabled (page (settle service racing)) = false
    /\ miniRefreshDisabled (page (settle service racing)) = false
    /\ (1 <= length (pending (settle service racing)))%nat.
Proof.
  intros num N service a Ha racing. subst racing.
  rewrite !invoke_run. cbn [page pending store view].
  unfold settle, panelActionDisabled, miniRefreshDisabled.
  cbn [page pending store view].
  destruct Ha as [[_ Hp]|[_ Hp]]; rewrite Hp; simpl;
    destruct (service (store a)) as [r st]; rewrite afterAwait_run; simpl;
    repeat apply conj; try reflexivity; lia.
Qed.

Lemma first_settled_call_lowers_the_flag_witness :
  let racing := invoke (invoke (mount (store0 (num:=float)))) in
  loadingPrices
    (page (settle (refreshMockPrices (fun _ => lit 0.5)) racing)) = false
  /\ (1 <= length
            (pending (settle (refreshMockPrices (fun _ => lit 0.5)) racing)))%nat.
Proof.
  destruct (first_settled_call_lowers_the_flag float _
              (refreshMockPrices (fun _ => lit 0.5)) (mount store0))
    as (_ & _ & Hflag & _ & _ & Hpend).
  - left. split; reflexivity.
  - split; assumption.
Defined.

(** X5 — A click is stopped by the [disabled] attribute the button was
    last rendered with, not by the busy flag itself.  When the component is
    rendered again after every click and every settled refresh, the page is
    Idle with no call in flight or Refreshing with exactly one, and a click
    on the page rendered busy does nothing.  Two clicks on a button rendered
    enabled, with no render between them, call the handler twice and leave
    two refreshes in flight. *)
Theorem clicks_are_stopped_by_the_last_render :
  forall (num : Type) (N : JSNumber num)
         (service : M (Store num) (PriceMap num)) (st : Store num),
    (forall es : list event,
        let a := steps service (render (mount st)) (each_rendered es) in
        view a = page a
        /\ one_in_flight a
        /\ (loadingPrices (page a) = true -> click a = a))
    /\ (forall a : App (num:=num),
          panelActionDisabled (view a) = false ->
          click (click a) = invoke (invoke a)
          /\ pending (click (click a))
             = pending a ++ [afterAwait; afterAwait]).
Proof.
  intros num N service st. split.
  - intros es a.
    destruct (each_rendered_one_in_flight service (render (mount st)) es)
      as [Hv Ha].
    { split; [reflexivity|]. left. split; reflexivity. }
    fold a in Hv, Ha. refine (conj Hv (conj Ha _)).
    intros Hl. unfold click, panelActionDisabled. rewrite Hv, Hl.
    reflexivity.
  - intros a Hen.
    assert (Hc : click a = invoke a).
    { unfold click. rewrite Hen. reflexivity. }
    assert (Hcc : click (click a) = invoke (invoke a)).
    { rewrite Hc. unfold click.
      assert (Hv : view (invoke a) = view a)
        by (rewrite invoke_run; reflexivity).
      rewrite Hv, Hen. reflexivity. }
    split; [exact Hcc|]. rewrite Hcc, !invoke_run. cbn [pending].
    rewrite <- app_assoc. reflexivity.
Qed.

Lemma clicks_are_stopped_by_the_last_render_witness :
  length
    (pending (click (click (mount (store0 (num:=float)))))) = 2%nat.
Proof.
  destruct (clicks_are_stopped_by_the_last_render float _
              (refreshMockPrices (fun _ => lit 0.5)) store0) as [_ Hrace].
  destruct (Hrace (mount store0)) as [_ Hp]; [reflexivity|].
  rewrite Hp. reflexivity.
Defined.

(** ** The store on exact numbers *)

Section ExactStoreFacts.
Implicit Types (w : Store xnum) (p : PricePoint.t xnum) (z c : Z).

Lemma hundredths_Q z : ((z # 100) == inject_Z z * (1 # 100))%Q.
Proof.
  rewrite (Qmake_Qdiv z 100). unfold Qdiv.
  change (/ inject_Z (Zpos 100))%Q with (1 # 100)%Q. reflexivity.
Qed.

(* The price a drift of [dd] percent makes of [z] hundredths, scaled by
   100. *)
Lemma drifted_hundredths z (dd : Qc) :
  (this (Q2Qc (z # 100) * (1 + dd / Q2Qc 100))%Qc * 100
   == inject_Z z * (1 + this dd * (1 # 100)))%Q.
Proof.
  rewrite this_mul, this_add, this_div, !this_Q2Qc, hundredths_Q.
  change (this 1%Qc) with 1%Q. unfold Qdiv.
  change (/ 100)%Q with (1 # 100)%Q. ring.
Qed.

(* A price of 0.41 or less is too small for a drift of 1.2 percent to reach
   the next hundredth. *)
Lemma advanced_small_price k p d e z :
  PricePoint.price p = Fin (Q2Qc (z # 100)) ->
  (0 <= z <= 41)%Z ->
  within d (lit 0) (lit 1.2) = true ->
  PricePoint.price (advanced k p d e) = PricePoint.price p.
Proof.
  intros Hp [Hz0 Hz41] Hd.
  destruct (within_range_inv _ _ Hd) as (dd & -> & Hd1 & Hd2).
  unfold advanced. cbn [PricePoint.price]. rewrite Hp.
  set (ex := (Q2Qc (z # 100) * (1 + dd / Q2Qc 100))%Qc).
  change ((Fin (Q2Qc (z # 100)) * (lit 1 + Fin dd / lit 100))%js)
    with (Fin ex).
  rewrite round2_Fin. do 3 f_equal.
  destruct (hundredths_spec ex) as [Hlo Hhi].
  subst ex. rewrite drifted_hundredths in Hlo, Hhi.
  set (h := X.hundredths (Q2Qc (z # 100) * (1 + dd / Q2Qc 100))%Qc) in *.
  assert (Hq0 : (0 <= inject_Z z)%Q).
  { change 0%Q with (inject_Z 0). rewrite <- Zle_Qle. exact Hz0. }
  assert (Hq41 : (inject_Z z <= 41)%Q).
  { change 41%Q with (inject_Z 41). rewrite <- Zle_Qle. exact Hz41. }
  assert (H1 : (h < z + 1)%Z).
  { rewrite Zlt_Qlt, inject_Z_plus. change (inject_Z 1) with 1%Q. nra. }
  assert (H2 : (z < h + 1)%Z).
  { rewrite Zlt_Qlt, inject_Z_plus. change (inject_Z 1) with 1%Q. nra. }
  lia.
Qed.

End ExactStoreFacts.

(** X7 — On exact numbers, with draws in [0, 1): a price of 0.41 or less
    (and not negative) never moves.  A refresh of a store whose keys are
    distinct leaves every such price as it was, since 1.2 percent of it is
    less than half a hundredth and [round2] rounds the drift away. *)
Theorem small_prices_never_move :
  forall (random : nat -> xnum) (w : Store xnum) k p (z : Z),
    (forall n,
        X.le (lit 0) (random n) = true /\ X.lt (random n) (lit 1) = true) ->
    wf_obj (state w) ->
    obj_get (state w) k = Some p ->
    PricePoint.price p = Fin (Q2Qc (z # 100)) ->
    (0 <= z <= 41)%Z ->
    exists p',
      obj_get (state (refreshMockPrices random w).2) k = Some p'
      /\ PricePoint.price p' = PricePoint.price p.
Proof.
  intros random w k p z Hdraws Hwf Hget Hp Hz.
  rewrite (refreshMockPrices_run random w Hwf). simpl.
  apply obj_get_Some_elem_of, list_elem_of_lookup in Hget as [i Hi].
  exists (advanced k p (driftPct_at random (drawn w) i)
            (delta_at random (drawn w) i)).
  split.
  - apply obj_get_elem_of.
    + unfold wf_obj. rewrite advance_from_keys. exact Hwf.
    + apply (list_elem_of_lookup_2 _ i), advance_from_lookup, Hi.
  - apply (advanced_small_price k p _ _ z Hp Hz).
    unfold driftPct_at. apply sample_range; apply Hdraws.
Qed.

Lemma small_prices_never_move_witness :
  exists p',
    obj_get
      (state
         (refreshMockPrices (num:=xnum) (fun _ => lit 0.96875)
            {| state := [("XRP", {| PricePoint.symbol := "XRP";
                                    PricePoint.price := lit 0.41;
                                    PricePoint.change24hPct := lit 0.24 |})];
               drawn := 0 |}).2)
      "XRP"
    = Some p'
    /\ PricePoint.price p' = lit (num:=xnum) 0.41.
Proof.
  destruct (small_prices_never_move (fun _ => lit 0.96875)
              {| state := [("XRP", {| PricePoint.symbol := "XRP";
                                      PricePoint.price := lit 0.41;
                                      PricePoint.change24hPct := lit 0.24 |})];
                 drawn := 0 |}
              "XRP"
              {| PricePoint.symbol := "XRP";
                 PricePoint.price := lit (num:=xnum) 0.41;
                 PricePoint.change24hPct := lit 0.24 |}
              41%Z)
    as (p' & Hget & Hprice).
  - intros n. split; reflexivity.
  - apply NoDup_singleton.
  - reflexivity.
  - xnum_eq.
  - lia.
  - exists p'. split; [exact Hget | exact Hprice].
Defined.

(** ** The helpers on exact numbers *)

Section ExactHelperFacts.
Implicit Types (x y v lo hi : xnum) (p q : Qc) (z : Z).

Lemma Qle_bool_false p q : Qle_bool p q = false <-> (this q < this p)%Q.
Proof.
  split.
  - intros Hb. apply Qnot_le_lt. intros Hle.
    apply Qle_bool_iff in Hle. congruence.
  - intros Hlt. destruct (Qle_bool p q) eqn:Hb; [|reflexivity].
    apply Qle_bool_iff in Hb. lra.
Qed.

End ExactHelperFacts.

(* The comparisons of exact numbers, as inequalities of rationals. *)
Ltac exact_order :=
  repeat match goal with
         | H : Qle_bool _ _ = true |- _ => apply Qle_bool_iff in H
         | H : Qle_bool _ _ = false |- _ => apply Qle_bool_false in H
         | H : negb _ = true |- _ => apply negb_true_iff in H
         | H : negb _ = false |- _ => apply negb_false_iff in H
         end.

(** X11 — [clamp] on exact numbers, for any bounds that are numbers: with
    [min <= max] a number is taken into [min, max] and a number of
    [min, max] is returned as it is, so that clamping twice is clamping
    once; with the bounds the wrong way round, [max < min], every number
    gives [min]; and [NaN] gives [NaN]. *)
Theorem clamp_takes_into_the_interval :
  forall v lo hi : xnum,
    lo <> NaN -> hi <> NaN ->
    (v <> NaN ->
     X.le lo hi = true ->
     X.le lo (clamp v lo hi) = true
     /\ X.le (clamp v lo hi) hi = true
     /\ clamp (clamp v lo hi) lo hi = clamp v lo hi)
    /\ (X.le lo v = true -> X.le v hi = true -> clamp v lo hi = v)
    /\ (v <> NaN -> X.lt hi lo = true -> clamp v lo hi = lo)
    /\ clamp NaN lo hi = NaN.
Proof.
  intros v lo hi Hlo Hhi.
  assert (Hin : forall u, X.le lo u = true -> X.le u hi = true ->
                          clamp u lo hi = u).
  { intros u. unfold clamp.
    cbn [Math_max Math_min xnum_number].
    destruct u as [q| | |], lo as [l| | |], hi as [h| | |];
      try congruence; try discriminate; try reflexivity;
      cbn [X.le X.max X.min X.lt]; intros H1 H2;
      repeat match goal with
             | |- context [Qle_bool ?a ?b] =>
                 let E := fresh "E" in destruct (Qle_bool a b) eqn:E
             end;
      cbn [negb X.lt]; try reflexivity; exact_order;
      try (f_equal; apply Qc_is_canon); try lra;
      repeat match goal with
             | |- context [Qle_bool ?a ?b] =>
                 let E := fresh "E" in destruct (Qle_bool a b) eqn:E
             end;
      cbn [negb]; try reflexivity; exact_order;
      try (f_equal; apply Qc_is_canon); lra. }
  assert (Hbounds : v <> NaN -> X.le lo hi = true ->
                    X.le lo (clamp v lo hi) = true
                    /\ X.le (clamp v lo hi) hi = true).
  { unfold clamp. cbn [Math_max Math_min xnum_number].
    destruct v as [q| | |], lo as [l| | |], hi as [h| | |];
      try congruence; try discriminate; intros _;
      cbn [X.le X.max X.min X.lt]; intros H1;
      repeat match goal with
             | |- context [Qle_bool ?a ?b] =>
                 let E := fresh "E" in destruct (Qle_bool a b) eqn:E
             end;
      cbn [negb X.lt X.le]; try (split; reflexivity);
      repeat match goal with
             | |- context [Qle_bool ?a ?b] =>
                 let E := fresh "E" in destruct (Qle_bool a b) eqn:E
             end;
      cbn [negb X.le]; try (split; reflexivity);
      exact_order;
      try (split; try reflexivity; apply Qle_bool_iff; lra);
      exfalso; lra. }
  refine (conj _ (conj (Hin v) (conj _ _))).
  - intros Hv Hle. destruct (Hbounds Hv Hle) as [H1 H2].
    refine (conj H1 (conj H2 _)). apply Hin; assumption.
  - unfold clamp. cbn [Math_max Math_min xnum_number].
    destruct v as [q| | |], lo as [l| | |], hi as [h| | |];
      try congruence; try discriminate; intros _;
      cbn [X.le X.max X.min X.lt]; intros H1;
      repeat match goal with
             | |- context [Qle_bool ?a ?b] =>
                 let E := fresh "E" in destruct (Qle_bool a b) eqn:E
             end;
      cbn [negb X.lt]; try reflexivity;
      repeat match goal with
             | |- context [Qle_bool ?a ?b] =>
                 let E := fresh "E" in destruct (Qle_bool a b) eqn:E
             end;
      cbn [negb]; try reflexivity; exact_order;
      try (f_equal; apply Qc_is_canon); exfalso; lra.
  - unfold clamp. cbn [Math_max Math_min xnum_number].
    destruct lo, hi; try congruence; reflexivity.
Qed.

Lemma clamp_takes_into_the_interval_witness :
  X.le (clamp (lit (num:=xnum) 1500) (lit (-99)) (lit 999)) (lit 999) = true
  /\ clamp (lit (num:=xnum) 5) (lit 10) (lit 0) = lit 10.
Proof.
  destruct (clamp_takes_into_the_interval (lit 1500) (lit (-99)) (lit 999))
    as (Hb & _); try discriminate.
  destruct (clamp_takes_into_the_interval (lit 5) (lit 10) (lit 0))
    as (_ & _ & Hswap & _); try discriminate.
  split.
  - apply Hb; [discriminate | reflexivity].
  - apply Hswap; [discriminate | reflexivity].
Defined.
